(** * QR code generator: the QRCodeGenerator component, embedded and verified

    The component (a React function component written in TypeScript) is
    embedded shallowly.  Its handlers become functions in a small state and
    exception monad over a [World]: the React state of the component, the
    browser's localStorage, the wall clock, the notices shown and the image
    requests issued.  Everything the browser or a library decides (the URL
    parser, the fate of an image request, the canvas, the QR encoder) is a
    field of a [Browser] record, so that the theorems hold for every browser
    and a concrete one can be plugged in to run the handlers. *)

From Stdlib Require Import Ascii String ZArith QArith Qcanon Lia Lqa.
From stdpp Require Import base tactics option list strings pretty gmap.

Local Open Scope Z_scope.

(** ** JavaScript strings

    A string is a sequence of code units; [string] holds one [ascii] per code
    unit, which covers the code units below 256. *)

Module JS.

(** WhiteSpace and LineTerminator code units below 256: TAB, LF, VT, FF, CR,
  SP and NBSP. *)
Definition isWhiteSpace (c : ascii) : bool :=
let n := nat_of_ascii c in
((9 <=? n) && (n <=? 13) || (n =? 32) || (n =? 160))%nat.

Fixpoint trimStart (s : string) : string :=
match s with
| EmptyString => EmptyString
| String c s' => if isWhiteSpace c then trimStart s' else s
end.

Fixpoint trimEnd (s : string) : string :=
match s with
| EmptyString => EmptyString
| String c s' =>
    match trimEnd s' with
    | EmptyString => if isWhiteSpace c then EmptyString else String c EmptyString
    | t => String c t
    end
end.

(** [String.prototype.trim] *)
Definition trim (s : string) : string := trimEnd (trimStart s).

(** [String.prototype.startsWith] *)
Definition startsWith (s p : string) : bool := String.prefix p s.

(** Truthiness of a string: every string but the empty one. *)
Definition truthy (s : string) : bool :=
match s with EmptyString => false | _ => true end.

(** [a || b] on strings, the first operand possibly [undefined]. *)
Definition or_else (a : option string) (b : string) : string :=
match a with
| Some s => if truthy s then s else b
| None => b
end.

(** [!a] for an optional string argument. *)
Definition falsy (a : option string) : bool :=
match a with
| Some s => negb (truthy s)
| None => true
end.

End JS.

(** ** Data model *)

(** [interface RecentUrl { url: string; timestamp: number }] *)
Module RecentUrl.
Record t := mk { url : string; timestamp : Z }.

#[global] Instance eq_dec : EqDecision t.
Proof. solve_decision. Defined.
End RecentUrl.

Abbreviation RecentUrl := RecentUrl.t.

(** The [File] chosen in the file picker. *)
Record File := { file_name : string; file_type : string }.

(** The four items of the size selector: '128', '256', '512', '1024'. *)
Inductive QrSize := Size128 | Size256 | Size512 | Size1024.

(** [parseInt(qrSize)] *)
Definition parseInt (q : QrSize) : Z :=
  match q with
  | Size128 => 128
  | Size256 => 256
  | Size512 => 512
  | Size1024 => 1024
  end.

Inductive Variant := Default | Destructive.

(** The argument of [toast]. *)
Record Toast := { title : string; description : string; variant : Variant }.

#[global] Instance Variant_eq_dec : EqDecision Variant.
Proof. solve_decision. Defined.

#[global] Instance Toast_eq_dec : EqDecision Toast.
Proof. solve_decision. Defined.

(** The React state of the component, one field per [useState]. *)
Record Component := {
  url : string;
  qrCodeDataUrl : string;
  isGenerating : bool;
  qrSize : QrSize;
  recentUrls : list RecentUrl;
  copied : bool;
  logoEnabled : bool;
  logoFile : option File;
  logoPreview : string;
  autoDetectLogo : bool;
  detectedFavicon : string;
  isDetectingLogo : bool
}.

(** The initial values given to [useState]. *)
Definition initialComponent : Component := {|
  url := "";
  qrCodeDataUrl := "";
  isGenerating := false;
  qrSize := Size256;
  recentUrls := [];
  copied := false;
  logoEnabled := false;
  logoFile := None;
  logoPreview := "";
  autoDetectLogo := true;
  detectedFavicon := "";
  isDetectingLogo := false
|}.

(** ** The browser

    What the platform and the QR library decide.  [new URL(s)] either gives a
    URL object or throws; an image request, should one be made, ends with a
    load event, an error event, or neither; the canvas may be missing; the
    PNG encoder behind [canvas.toDataURL] and the QR encoder are functions of
    their arguments. *)

(** The fields of a [URL] object the component reads. *)
Module URL.
Record t := mk { protocol : string; hostname : string }.
End URL.

(** An [Image] element as it is when [src] is assigned. *)
Record ImageRequest := { src : string; crossOrigin : option string }.

#[global] Instance ImageRequest_eq_dec : EqDecision ImageRequest.
Proof. solve_decision. Defined.

(** A decoded image: the element and its dimensions. *)
Record HTMLImageElement := {
  element : ImageRequest;
  width : Z;
  height : Z
}.

(** The fate of an image request: [onload] after some milliseconds, [onerror]
    after some milliseconds, or no event at all. *)
Inductive Loading :=
| Loads (after : N) (w h : Z)
| Fails (after : N)
| Stalls.

(** The calls made on a 2D context, in order. Every arc of the component is a
    full circle (from 0 to 2π). *)
Inductive Draw :=
| drawImage (img : HTMLImageElement) (dx dy : Qc)
| drawImageScaled (img : HTMLImageElement) (dx dy dw dh : Qc)
| fillStyle (colour : string)
| strokeStyle (colour : string)
| lineWidth (w : Qc)
| beginPath
| arc (x y radius : Qc)
| fill
| stroke
| save
| clip
| restore.

Record Canvas := {
  canvas_width : Z;
  canvas_height : Z;
  drawn : list Draw
}.

(** The options passed to [QRCode.toDataURL]. *)
Module QROptions.
Record t := mk {
  width : Z;
  margin : Z;
  dark : string;
  light : string;
  errorCorrectionLevel : string
}.
End QROptions.

Record Browser := {
  (** [new URL(s)]; [None] when it throws. *)
  URL_new : string → option URL.t;
  (** What happens to the n-th image request of the page, once an image
      element is given its [src]. *)
  Image_load : nat → ImageRequest → Loading;
  (** [typeof document !== 'undefined' && document.createElement] *)
  document_createElement : bool;
  (** [canvas.getContext('2d')] is not null. *)
  canvas_getContext : bool;
  (** [canvas.toDataURL('image/png')]; [None] when it throws. *)
  canvas_toDataURL : Canvas → option string;
  (** [QRCode.toDataURL(text, options)]; [None] when the promise rejects. *)
  QRCode_toDataURL : string → QROptions.t → option string
}.

(** ** The world

    The text kept in localStorage is held as the value it stands for: text
    written by [JSON.stringify] on a list of entries is parsed back by
    [JSON.parse] to that list; [Garbled] holds a text that is not JSON, kept
    as it is, on which [JSON.parse] throws.  A text that is JSON of another
    shape than a list of entries, which the component never writes, has no
    value here. *)
Inductive Stored :=
| Serialized (entries : list RecentUrl)
| Garbled (text : string).

Record World := {
  component : Component;
  localStorage : gmap string Stored;
  (** what [Date.now()] returns; time only passes forward *)
  clock : Z;
  (** the calls of [toast], oldest first *)
  toasts : list Toast;
  (** the image requests issued, oldest first *)
  requests : list ImageRequest
}.

(** ** The monad of handlers: state and exceptions *)

Inductive Completion (A : Type) :=
| Normal (a : A)
| Throw (error : string).
Arguments Normal {A} a.
Arguments Throw {A} error.

Definition M (A : Type) : Type := World → Completion A * World.

#[global] Instance M_ret : MRet M := λ A a w, (Normal a, w).

#[global] Instance M_bind : MBind M := λ A B f m w,
  match m w with
  | (Normal a, w') => f a w'
  | (Throw e, w') => (Throw e, w')
  end.

(** [throw new Error(e)] *)
Definition throw {A} (e : string) : M A := λ w, (Throw e, w).

(** [try { body } catch (error) { handler }] *)
Definition try_catch {A} (body : M A) (handler : string → M A) : M A := λ w,
  match body w with
  | (Normal a, w') => (Normal a, w')
  | (Throw e, w') => handler e w'
  end.

(** [try { body } finally { final }] *)
Definition try_finally {A} (body : M A) (final : M ()) : M A := λ w,
  match body w with
  | (c, w') =>
      match final w' with
      | (Normal _, w'') => (c, w'')
      | (Throw e, w'') => (Throw e, w'')
      end
  end.

Definition modify (f : World → World) : M () := λ w, (Normal (), f w).

(** ** State setters

    A setter of [useState] replaces one field of the component's state. A
    handler reads the state through the values captured by the render it
    belongs to (a [Component] passed to it), and writes through the setters. *)

Definition with_component (f : Component → Component) (w : World) : World :=
  {| component := f (component w); localStorage := localStorage w;
     clock := clock w; toasts := toasts w; requests := requests w |}.

Definition setUrl (v : string) : M () :=
  modify (with_component (λ c,
    {| url := v; qrCodeDataUrl := qrCodeDataUrl c; isGenerating := isGenerating c;
       qrSize := qrSize c; recentUrls := recentUrls c; copied := copied c;
       logoEnabled := logoEnabled c; logoFile := logoFile c;
       logoPreview := logoPreview c; autoDetectLogo := autoDetectLogo c;
       detectedFavicon := detectedFavicon c; isDetectingLogo := isDetectingLogo c |})).

Definition setQrCodeDataUrl (v : string) : M () :=
  modify (with_component (λ c,
    {| url := url c; qrCodeDataUrl := v; isGenerating := isGenerating c;
       qrSize := qrSize c; recentUrls := recentUrls c; copied := copied c;
       logoEnabled := logoEnabled c; logoFile := logoFile c;
       logoPreview := logoPreview c; autoDetectLogo := autoDetectLogo c;
       detectedFavicon := detectedFavicon c; isDetectingLogo := isDetectingLogo c |})).

Definition setIsGenerating (v : bool) : M () :=
  modify (with_component (λ c,
    {| url := url c; qrCodeDataUrl := qrCodeDataUrl c; isGenerating := v;
       qrSize := qrSize c; recentUrls := recentUrls c; copied := copied c;
       logoEnabled := logoEnabled c; logoFile := logoFile c;
       logoPreview := logoPreview c; autoDetectLogo := autoDetectLogo c;
       detectedFavicon := detectedFavicon c; isDetectingLogo := isDetectingLogo c |})).

Definition setRecentUrls (v : list RecentUrl) : M () :=
  modify (with_component (λ c,
    {| url := url c; qrCodeDataUrl := qrCodeDataUrl c; isGenerating := isGenerating c;
       qrSize := qrSize c; recentUrls := v; copied := copied c;
       logoEnabled := logoEnabled c; logoFile := logoFile c;
       logoPreview := logoPreview c; autoDetectLogo := autoDetectLogo c;
       detectedFavicon := detectedFavicon c; isDetectingLogo := isDetectingLogo c |})).

Definition setDetectedFavicon (v : string) : M () :=
  modify (with_component (λ c,
    {| url := url c; qrCodeDataUrl := qrCodeDataUrl c; isGenerating := isGenerating c;
       qrSize := qrSize c; recentUrls := recentUrls c; copied := copied c;
       logoEnabled := logoEnabled c; logoFile := logoFile c;
       logoPreview := logoPreview c; autoDetectLogo := autoDetectLogo c;
       detectedFavicon := v; isDetectingLogo := isDetectingLogo c |})).

Definition setIsDetectingLogo (v : bool) : M () :=
  modify (with_component (λ c,
    {| url := url c; qrCodeDataUrl := qrCodeDataUrl c; isGenerating := isGenerating c;
       qrSize := qrSize c; recentUrls := recentUrls c; copied := copied c;
       logoEnabled := logoEnabled c; logoFile := logoFile c;
       logoPreview := logoPreview c; autoDetectLogo := autoDetectLogo c;
       detectedFavicon := detectedFavicon c; isDetectingLogo := v |})).

(** ** Platform calls *)

(** [toast({ title, description, variant })] *)
Definition toast (t : Toast) : M () :=
  modify (λ w,
    {| component := component w; localStorage := localStorage w;
       clock := clock w; toasts := toasts w ++ [t]; requests := requests w |}).

(** [Date.now()] *)
Definition Date_now : M Z := λ w, (Normal (clock w), w).

(** [localStorage.setItem(key, text)] *)
Definition localStorage_setItem (key : string) (text : Stored) : M () :=
  modify (λ w,
    {| component := component w; localStorage := <[key := text]> (localStorage w);
       clock := clock w; toasts := toasts w; requests := requests w |}).

(** [localStorage.removeItem(key)] *)
Definition localStorage_removeItem (key : string) : M () :=
  modify (λ w,
    {| component := component w; localStorage := delete key (localStorage w);
       clock := clock w; toasts := toasts w; requests := requests w |}).

(** [localStorage.getItem(key)]; [None] is [null]. *)
Definition localStorage_getItem (key : string) : M (option Stored) :=
  λ w, (Normal (localStorage w !! key), w).

(** [JSON.stringify] of the list of entries. *)
Definition JSON_stringify (entries : list RecentUrl) : Stored := Serialized entries.

(** [JSON.parse], on a text the component wrote or on one that is not JSON. *)
Definition JSON_parse (text : Stored) : M (list RecentUrl) :=
  match text with
  | Serialized entries => mret entries
  | Garbled _ => throw "SyntaxError"
  end.

(** Truthiness of a stored text: the text of a serialized array is never
    empty. *)
Definition Stored_truthy (text : Stored) : bool :=
  match text with
  | Serialized _ => true
  | Garbled t => JS.truthy t
  end.

(** [new URL(s)] *)
Definition new_URL (B : Browser) (s : string) : M URL.t :=
  match URL_new B s with
  | Some u => mret u
  | None => throw "TypeError: Invalid URL"
  end.

(** [new Image()].  In this module [Image] is not the constructor of the DOM:
    line 20 imports [Image] from lucide-react, the icon rendered as [<Image/>]
    on lines 540 and 663, and the import shadows the global name.  The icon is
    an object made by React's [forwardRef], not a function, so [new Image()]
    throws a TypeError.  Each of the three calls stands first in the executor
    of a promise: the throw rejects the promise, and the [await] on it
    throws. *)
Definition new_Image : M () :=
  throw "TypeError: Image is not a constructor".

(** How a promise around an image element settles: [onload] fired first,
    [onerror] fired first, or the timer did. *)
Inductive Settled :=
| onload (img : HTMLImageElement)
| onerror
| timeout.

(** The rest of such an executor, which comes after [new Image()] and would
    run on an image element: assigning [img.src] and waiting, with a timer of
    [ms] milliseconds set beside the two handlers. The request is the next one
    of the page; an event wins over the timer when it comes strictly before
    it. The clock moves on by the time waited. *)
Definition Image_await (B : Browser) (img : ImageRequest) (ms : N) : M Settled :=
  λ w,
    let waited (t : N) : World :=
      {| component := component w; localStorage := localStorage w;
         clock := clock w + Z.of_N t; toasts := toasts w;
         requests := requests w ++ [img] |} in
    match Image_load B (length (requests w)) img with
    | Loads t iw ih =>
        if (t <? ms)%N
        then (Normal (onload {| element := img; width := iw; height := ih |}), waited t)
        else (Normal timeout, waited ms)
    | Fails t =>
        if (t <? ms)%N then (Normal onerror, waited t) else (Normal timeout, waited ms)
    | Stalls => (Normal timeout, waited ms)
    end.

(** ** The handlers of the component *)

(** The key of the persisted record. *)
Definition recentUrlsKey : string := "qr-recent-urls".

(** The effect run on mount: read the persisted record. *)
Definition loadRecentUrls : M () :=
  saved ← localStorage_getItem recentUrlsKey;
  match saved with
  | Some text =>
      if Stored_truthy text
      then try_catch (entries ← JSON_parse text; setRecentUrls entries)
                     (λ e, mret ())
      else mret ()
  | None => mret ()
  end.

Definition isValidUrl (B : Browser) (s : string) : bool :=
  match URL_new B s with
  | Some _ => true
  | None => false
  end.

(** The candidate list built by [detectFavicon]. *)
Definition faviconSources (urlObj : URL.t) : list string :=
  let domain := URL.hostname urlObj in
  [ "https://www.google.com/s2/favicons?domain=" +:+ domain +:+ "&sz=64";
    "https://icons.duckduckgo.com/ip3/" +:+ domain +:+ ".ico";
    "https://www.google.com/s2/favicons?domain=" +:+ domain +:+ "&sz=32";
    URL.protocol urlObj +:+ "//" +:+ domain +:+ "/favicon.ico";
    URL.protocol urlObj +:+ "//" +:+ domain +:+ "/favicon.png";
    URL.protocol urlObj +:+ "//" +:+ domain +:+ "/apple-touch-icon.png" ].

Definition fallbackFavicon (urlObj : URL.t) : string :=
  "https://www.google.com/s2/favicons?domain=" +:+ URL.hostname urlObj +:+ "&sz=64".

(** The promise of the favicon test (lines 99 to 121), awaited: its executor
    begins with [new Image()]; what follows would resolve it to [true] on
    [onload] and to [false] on [onerror] or after 3000 ms. *)
Definition isAccessible (B : Browser) (faviconUrl : string) : M bool :=
  new_Image ;;
  settled ← Image_await B {| src := faviconUrl; crossOrigin := Some "anonymous" |} 3000;
  match settled with
  | onload _ => mret true
  | onerror => mret false
  | timeout => mret false
  end.

(** The [for] loop of [detectFavicon] over the candidates that are left:
    [Some u] when the loop returns [u] from the function, [None] when the
    loop runs to its end. *)
Fixpoint testFaviconSources (B : Browser) (sources : list string) : M (option string) :=
  match sources with
  | [] => mret None
  | faviconUrl :: rest =>
      returned ← try_catch
        (accessible ← isAccessible B faviconUrl;
         if (accessible : bool)
         then setDetectedFavicon faviconUrl ;; mret (Some faviconUrl)
         else mret None)
        (λ error, mret None);
      match returned with
      | Some u => mret (Some u)
      | None => testFaviconSources B rest
      end
  end.

Definition detectFavicon (B : Browser) (urlString : string) : M (option string) :=
  if negb (isValidUrl B urlString) then mret None
  else
    setIsDetectingLogo true ;;
    try_finally
      (try_catch
         (urlObj ← new_URL B urlString;
          returned ← testFaviconSources B (faviconSources urlObj);
          match returned with
          | Some u => mret (Some u)
          | None =>
              setDetectedFavicon (fallbackFavicon urlObj) ;;
              mret (Some (fallbackFavicon urlObj))
          end)
         (λ error, setDetectedFavicon "" ;; mret None))
      (setIsDetectingLogo false).

(** The list [addToRecentUrls] computes from the list of its render. *)
Definition updated (recentUrls : list RecentUrl) (newUrl : string) (now : Z)
  : list RecentUrl :=
  take 5 (RecentUrl.mk newUrl now
          :: filter (λ item, RecentUrl.url item ≠ newUrl) recentUrls).

Definition addToRecentUrls (r : Component) (newUrl : string) : M () :=
  now ← Date_now;
  setRecentUrls (updated (recentUrls r) newUrl now) ;;
  localStorage_setItem recentUrlsKey
    (JSON_stringify (updated (recentUrls r) newUrl now)).

Definition clearRecentUrls : M () :=
  setRecentUrls [] ;;
  localStorage_removeItem recentUrlsKey ;;
  toast {| title := "History Cleared";
           description := "Recent URLs have been cleared";
           variant := Default |}.

(** [crossOrigin] is set to 'anonymous' unless the source is a data URL. *)
Definition crossOriginFor (source : string) : option string :=
  if JS.startsWith source "data:" then None else Some "anonymous".

(** The promise around the QR image (lines 201 to 222), awaited: its executor
    begins with [new Image()]; the timer that follows is of 10000 ms. *)
Definition loadQrImage (B : Browser) (qrDataUrl : string) : M HTMLImageElement :=
  new_Image ;;
  settled ← Image_await B {| src := qrDataUrl; crossOrigin := crossOriginFor qrDataUrl |} 10000;
  match settled with
  | onload img => mret img
  | onerror => throw "Failed to load QR image"
  | timeout => throw "QR image load timeout"
  end.

(** The promise around the logo image (lines 240 to 265), awaited: its
    executor begins with [new Image()]; the timer that follows is of 8000 ms. *)
Definition loadLogoImage (B : Browser) (logoUrl : string) : M HTMLImageElement :=
  new_Image ;;
  settled ← Image_await B {| src := logoUrl; crossOrigin := crossOriginFor logoUrl |} 8000;
  match settled with
  | onload img => mret img
  | onerror => throw "Failed to load logo"
  | timeout => throw "Logo load timeout"
  end.

(** The calls that draw the logo on the context, from the white disc to
    [restore]. *)
Definition drawLogo (qrImage logoImage : HTMLImageElement) : list Draw :=
  let logoSize := (Qc_of_Z (Z.min (width qrImage) (height qrImage)) * Q2Qc (1 # 4))%Qc in
  let centerX := (Qc_of_Z (width qrImage) / Qc_of_Z 2)%Qc in
  let centerY := (Qc_of_Z (height qrImage) / Qc_of_Z 2)%Qc in
  let logoX := (centerX - logoSize / Qc_of_Z 2)%Qc in
  let logoY := (centerY - logoSize / Qc_of_Z 2)%Qc in
  let backgroundRadius := (logoSize / Qc_of_Z 2 + Qc_of_Z 8)%Qc in
  [ fillStyle "white"; beginPath; arc centerX centerY backgroundRadius; fill;
    strokeStyle "#e5e7eb"; lineWidth (Qc_of_Z 2); beginPath;
    arc centerX centerY backgroundRadius; stroke;
    save; beginPath; arc centerX centerY (logoSize / Qc_of_Z 2)%Qc; clip;
    drawImageScaled logoImage logoX logoY logoSize logoSize; restore ].

(** [canvas.toDataURL('image/png')] *)
Definition toDataURL (B : Browser) (canvas : Canvas) : M string :=
  match canvas_toDataURL B canvas with
  | Some dataUrl => mret dataUrl
  | None => throw "SecurityError"
  end.

Definition createQRWithLogo (B : Browser) (qrDataUrl logoUrl : string) : M string :=
  try_catch
    ((if negb (document_createElement B) then throw "Canvas not supported" else mret ()) ;;
     (if negb (canvas_getContext B) then throw "Canvas context not available" else mret ()) ;;
     qrImage ← loadQrImage B qrDataUrl;
     let canvas :=
       {| canvas_width := width qrImage; canvas_height := height qrImage;
          drawn := [drawImage qrImage 0 0] |} in
     canvas ← try_catch
       (logoImage ← loadLogoImage B logoUrl;
        mret {| canvas_width := canvas_width canvas;
                canvas_height := canvas_height canvas;
                drawn := drawn canvas ++ drawLogo qrImage logoImage |})
       (λ logoError, mret canvas);
     finalDataUrl ← toDataURL B canvas;
     mret finalDataUrl)
    (λ error, mret qrDataUrl).

(** [QRCode.toDataURL(text, options)], awaited. *)
Definition QRCode_toDataURL_await (B : Browser) (text : string) (options : QROptions.t)
  : M string :=
  match QRCode_toDataURL B text options with
  | Some dataUrl => mret dataUrl
  | None => throw "QRCode.toDataURL rejected"
  end.

(** The options [generateQRCode] passes to the encoder. *)
Definition qrOptions (r : Component) : QROptions.t :=
  QROptions.mk (parseInt (qrSize r)) 2 "#1f2937" "#ffffff" "H".

(** The logo source [generateQRCode] settles on: the uploaded image, else the
    detected favicon, else the empty string. *)
Definition chooseLogoUrl (B : Browser) (r : Component) (targetUrl : string) : M string :=
  if bool_decide (is_Some (logoFile r)) && JS.truthy (logoPreview r)
  then mret (logoPreview r)
  else if autoDetectLogo r
  then
    favicon ← detectFavicon B targetUrl;
    match favicon with
    | Some f => if JS.truthy f then mret f else mret ""
    | None => mret ""
    end
  else mret "".

(** The notices of the logo step. *)
Definition logoIssueToast : Toast :=
  {| title := "Logo Integration Issue";
     description := "Logo could not be integrated, using QR code without logo";
     variant := Destructive |}.

Definition logoSuccessToast : Toast :=
  {| title := "Success!";
     description := "QR code with logo generated successfully";
     variant := Default |}.

Definition logoFailedToast : Toast :=
  {| title := "Logo Integration Failed";
     description := "QR code generated without logo";
     variant := Destructive |}.

Definition noLogoToast : Toast :=
  {| title := "No Logo Found";
     description := "Could not detect or load logo, generating QR code without logo";
     variant := Destructive |}.

(** The block [if (logoEnabled) { ... }] of [generateQRCode]: the value of
    [finalQrDataUrl] after it. *)
Definition addLogo (B : Browser) (r : Component) (targetUrl qrDataUrl : string) : M string :=
  if logoEnabled r
  then
    logoUrl ← chooseLogoUrl B r targetUrl;
    if JS.truthy logoUrl
    then
      try_catch
        (finalQrDataUrl ← createQRWithLogo B qrDataUrl logoUrl;
         (if decide (finalQrDataUrl = qrDataUrl)
          then toast logoIssueToast
          else toast logoSuccessToast) ;;
         mret finalQrDataUrl)
        (λ error, toast logoFailedToast ;; mret qrDataUrl)
    else
      toast noLogoToast ;;
      mret qrDataUrl
  else mret qrDataUrl.

Definition urlRequiredToast : Toast :=
  {| title := "URL Required";
     description := "Please enter a URL to generate QR code";
     variant := Destructive |}.

Definition invalidUrlToast : Toast :=
  {| title := "Invalid URL";
     description := "Please enter a valid URL (e.g., https://example.com)";
     variant := Destructive |}.

Definition generatedToast (r : Component) : Toast :=
  {| title := "QR Code Generated!";
     description := if logoEnabled r then "QR code with logo is ready!"
                    else "Your QR code is ready to download or share";
     variant := Default |}.

Definition generationFailedToast : Toast :=
  {| title := "Generation Failed";
     description := "Failed to generate QR code. Please try again.";
     variant := Destructive |}.

(** [generateQRCode(inputUrl?)], as created by the render whose state is
    [r]. *)
Definition generateQRCode (B : Browser) (r : Component) (inputUrl : option string) : M () :=
  let targetUrl := JS.or_else inputUrl (url r) in
  if negb (JS.truthy (JS.trim targetUrl)) then toast urlRequiredToast
  else if negb (isValidUrl B targetUrl) then toast invalidUrlToast
  else
    setIsGenerating true ;;
    try_finally
      (try_catch
         (qrDataUrl ← QRCode_toDataURL_await B targetUrl (qrOptions r);
          finalQrDataUrl ← addLogo B r targetUrl qrDataUrl;
          setQrCodeDataUrl finalQrDataUrl ;;
          (if JS.falsy inputUrl then addToRecentUrls r targetUrl else mret ()) ;;
          toast (generatedToast r))
         (λ error, toast generationFailedToast))
      (setIsGenerating false).

(** The [onClick] of an entry of the history list. *)
Definition selectRecentUrl (B : Browser) (r : Component) (item : RecentUrl) : M () :=
  setUrl (RecentUrl.url item) ;;
  generateQRCode B r (Some (RecentUrl.url item)).

(** The [onClick] of the generate button, and [handleKeyPress] on Enter. *)
Definition submit (B : Browser) (r : Component) : M () :=
  generateQRCode B r None.

(** Running a handler of the current render: the handler sees the state the
    world holds when it starts. *)
Definition handle {A} (handler : Component → M A) : M A :=
  λ w, handler (component w) w.

(** Mounting the component: the state starts from the initial values and the
    effect reads the persisted record. *)
Definition mount : M () :=
  modify (with_component (λ _, initialComponent)) ;;
  loadRecentUrls.

(** Time passing between two events. *)
Definition wait (ms : N) : M () :=
  modify (λ w,
    {| component := component w; localStorage := localStorage w;
       clock := clock w + Z.of_N ms; toasts := toasts w; requests := requests w |}).

(** ** The history store as a machine

    The operations of the history store, in the order they happen. An add
    is made by a handler, and a handler reads the list of the render that
    created it: [OpAdd newUrl k] adds from the render [k] events back ([0] is
    the current one), which is what happens when the list is cleared while
    a generation is still awaiting the encoder. *)
Inductive HistoryOp :=
| OpAdd (newUrl : string) (render : nat)
| OpClear
| OpLoad
| OpWait (ms : N).

Definition historyOp (op : HistoryOp) (past : list Component) : M () :=
  match op with
  | OpAdd newUrl k =>
      handle (λ current, addToRecentUrls (default current ((current :: past) !! k)) newUrl)
  | OpClear => clearRecentUrls
  | OpLoad => mount
  | OpWait ms => wait ms
  end.

(** The world after the operations, [past] being the renders before the
    current one, newest first. *)
Fixpoint runHistory (ops : list HistoryOp) (past : list Component) (w : World) : World :=
  match ops with
  | [] => w
  | op :: ops' => runHistory ops' (component w :: past) (historyOp op past w).2
  end.

(** The world of a first visit at time [now]. *)
Definition freshWorld (now : Z) : World :=
  {| component := initialComponent; localStorage := ∅; clock := now;
     toasts := []; requests := [] |}.

(** The entries are ordered newest first: timestamps never increase along the
    list. *)
Fixpoint newestFirst (l : list RecentUrl) : Prop :=
  match l with
  | [] => True
  | e :: l' => Forall (λ e', RecentUrl.timestamp e' ≤ RecentUrl.timestamp e) l' ∧ newestFirst l'
  end.

(** The invariant of a history list, none of whose entries is from after
    [now]. *)
Record historyOK (now : Z) (l : list RecentUrl) : Prop := {
  history_length : (length l ≤ 5)%nat;
  history_unique : NoDup (RecentUrl.url <$> l);
  history_newestFirst : newestFirst l;
  history_past : Forall (λ e, RecentUrl.timestamp e ≤ now) l
}.

(** The invariant of the world: the list shown and the persisted list. *)
Definition worldOK (w : World) : Prop :=
  historyOK (clock w) (recentUrls (component w)) ∧
  ∀ entries, localStorage w !! recentUrlsKey = Some (Serialized entries) →
             historyOK (clock w) entries.

(** The renders before the current one all satisfy the invariant. *)
Definition pastOK (now : Z) (past : list Component) : Prop :=
  Forall (λ r, historyOK now (recentUrls r)) past.

(** Adding the URLs [us] one after the other, each from the current render. *)
Definition sequentialAdds (us : list string) : list HistoryOp :=
  (λ u, OpAdd u 0) <$> us.

(** The entries made of [us] at time [t]. *)
Definition stamped (t : Z) (us : list string) : list RecentUrl :=
  (λ u, RecentUrl.mk u t) <$> us.

(** ** A browser to run the handlers on

    A small browser for the examples: its URL parser knows http and https
    URLs only, its QR encoder and its PNG encoder write a readable text
    instead of pixels (a canvas that holds nothing but a PNG image drawn at
    the origin is exported as that PNG; anything else is encoded anew), and
    the fate of the image requests is chosen by the example. *)
Module Sample.

Definition delimiter (c : ascii) : bool :=
  bool_decide (c ∈ ["/"; ":"; "?"; "#"]%char).

Fixpoint hostOf (s : string) : string :=
  match s with
  | EmptyString => EmptyString
  | String c s' => if delimiter c then EmptyString else String c (hostOf s')
  end.

Definition afterScheme (scheme s : string) : option URL.t :=
  if String.prefix (scheme +:+ "//") s
  then
    let host := hostOf (String.substring (String.length scheme + 2) (String.length s) s) in
    if JS.truthy host then Some (URL.mk scheme host) else None
  else None.

Definition parse (s : string) : option URL.t :=
  match afterScheme "https:" s with
  | Some u => Some u
  | None => afterScheme "http:" s
  end.

Definition encodeQR (text : string) (options : QROptions.t) : option string :=
  Some ("data:image/png;base64,qr(" +:+ text +:+ ")").

Definition encodePNG (canvas : Canvas) : option string :=
  match drawn canvas with
  | [drawImage img _ _] =>
      if String.prefix "data:image/png" (src (element img))
      then Some (src (element img))
      else Some "data:image/png;base64,redrawn"
  | _ => Some "data:image/png;base64,composite"
  end.

Definition browser (load : nat → ImageRequest → Loading) : Browser :=
  {| URL_new := parse;
     Image_load := load;
     document_createElement := true;
     canvas_getContext := true;
     canvas_toDataURL := encodePNG;
     QRCode_toDataURL := encodeQR |}.

(** Data URLs decode at once to a 256 by 256 image; nothing else answers. *)
Definition offline (n : nat) (img : ImageRequest) : Loading :=
  if JS.startsWith (src img) "data:" then Loads 5 256 256 else Stalls.

(** As [offline], but the network answers after four seconds. *)
Definition slow (n : nat) (img : ImageRequest) : Loading :=
  if JS.startsWith (src img) "data:" then Loads 5 256 256 else Loads 4000 64 64.

(** Data URLs decode at once, DuckDuckGo's icon and Google's 32-pixel icon
    load, and every other request fails after 200 ms. *)
Definition someIcons (n : nat) (img : ImageRequest) : Loading :=
  if JS.startsWith (src img) "data:" then Loads 5 256 256
  else if bool_decide (src img = "https://icons.duckduckgo.com/ip3/example.com.ico")
  then Loads 120 32 32
  else if bool_decide (src img = "https://www.google.com/s2/favicons?domain=example.com&sz=32")
  then Loads 80 32 32
  else Fails 200.

(** A parser that, as the browser's does, also accepts an address with a
    scheme and no host. *)
Definition parseAddress (s : string) : option URL.t :=
  if String.prefix "mailto:" s then Some (URL.mk "mailto:" "") else parse s.

Definition mailer : Browser :=
  {| URL_new := parseAddress;
     Image_load := offline;
     document_createElement := true;
     canvas_getContext := true;
     canvas_toDataURL := encodePNG;
     QRCode_toDataURL := encodeQR |}.

Definition world : World := freshWorld 1700000000000.

(** The state of a render: the URL typed in and the logo switch. *)
Definition typed (text : string) (logo : bool) : Component :=
  {| url := text; qrCodeDataUrl := ""; isGenerating := false; qrSize := Size256;
     recentUrls := []; copied := false; logoEnabled := logo; logoFile := None;
     logoPreview := ""; autoDetectLogo := true; detectedFavicon := "";
     isDetectingLogo := false |}.

End Sample.

(** ** Notions used to state the properties *)

(** The image the [n]-th request of the page decodes to, when its [onload]
    comes before a timer of [ms] milliseconds. *)
Definition Image_within (B : Browser) (n : nat) (img : ImageRequest) (ms : N)
  : option HTMLImageElement :=
  match Image_load B n img with
  | Loads t iw ih =>
      if (t <? ms)%N then Some {| element := img; width := iw; height := ih |} else None
  | Fails _ => None
  | Stalls => None
  end.

(** The image element the test of a candidate sets up. *)
Definition faviconTest (faviconUrl : string) : ImageRequest :=
  {| src := faviconUrl; crossOrigin := Some "anonymous" |}.

(** The image element the compositor sets up for a source. *)
Definition imageRequest (source : string) : ImageRequest :=
  {| src := source; crossOrigin := crossOriginFor source |}.

(** A computation that never throws. *)
Definition neverThrows {A} (m : M A) : Prop :=
  ∀ w, ∃ a, (m w).1 = Normal a.

(** A computation that leaves the history alone: the list shown and
    localStorage. *)
Definition keepsHistory {A} (m : M A) : Prop :=
  ∀ w, recentUrls (component (m w).2) = recentUrls (component w) ∧
       localStorage (m w).2 = localStorage w.

(** Whether a candidate, asked for as the [n]-th request of the page, would
    load within 3 seconds. *)
Definition loadsInTime (B : Browser) (n : nat) (faviconUrl : string) : bool :=
  match Image_within B n (faviconTest faviconUrl) 3000 with
  | Some _ => true
  | None => false
  end.

(** A valid input of the resolver as the specification words it: a string
    that parses to a URL with a scheme and a host. [isValidUrl] above is the
    test of the code. *)
Definition claimedValidUrl (B : Browser) (s : string) : bool :=
  match URL_new B s with
  | Some urlObj => JS.truthy (URL.protocol urlObj) && JS.truthy (URL.hostname urlObj)
  | None => false
  end.


(** ** The other setters, handlers and effects of the component *)

Definition setCopied (v : bool) : M () :=
  modify (with_component (λ c,
    {| url := url c; qrCodeDataUrl := qrCodeDataUrl c; isGenerating := isGenerating c;
       qrSize := qrSize c; recentUrls := recentUrls c; copied := v;
       logoEnabled := logoEnabled c; logoFile := logoFile c;
       logoPreview := logoPreview c; autoDetectLogo := autoDetectLogo c;
       detectedFavicon := detectedFavicon c; isDetectingLogo := isDetectingLogo c |})).

Definition setLogoEnabled (v : bool) : M () :=
  modify (with_component (λ c,
    {| url := url c; qrCodeDataUrl := qrCodeDataUrl c; isGenerating := isGenerating c;
       qrSize := qrSize c; recentUrls := recentUrls c; copied := copied c;
       logoEnabled := v; logoFile := logoFile c;
       logoPreview := logoPreview c; autoDetectLogo := autoDetectLogo c;
       detectedFavicon := detectedFavicon c; isDetectingLogo := isDetectingLogo c |})).

Definition setLogoFile (v : option File) : M () :=
  modify (with_component (λ c,
    {| url := url c; qrCodeDataUrl := qrCodeDataUrl c; isGenerating := isGenerating c;
       qrSize := qrSize c; recentUrls := recentUrls c; copied := copied c;
       logoEnabled := logoEnabled c; logoFile := v;
       logoPreview := logoPreview c; autoDetectLogo := autoDetectLogo c;
       detectedFavicon := detectedFavicon c; isDetectingLogo := isDetectingLogo c |})).

Definition setLogoPreview (v : string) : M () :=
  modify (with_component (λ c,
    {| url := url c; qrCodeDataUrl := qrCodeDataUrl c; isGenerating := isGenerating c;
       qrSize := qrSize c; recentUrls := recentUrls c; copied := copied c;
       logoEnabled := logoEnabled c; logoFile := logoFile c;
       logoPreview := v; autoDetectLogo := autoDetectLogo c;
       detectedFavicon := detectedFavicon c; isDetectingLogo := isDetectingLogo c |})).

Definition setAutoDetectLogo (v : bool) : M () :=
  modify (with_component (λ c,
    {| url := url c; qrCodeDataUrl := qrCodeDataUrl c; isGenerating := isGenerating c;
       qrSize := qrSize c; recentUrls := recentUrls c; copied := copied c;
       logoEnabled := logoEnabled c; logoFile := logoFile c;
       logoPreview := logoPreview c; autoDetectLogo := v;
       detectedFavicon := detectedFavicon c; isDetectingLogo := isDetectingLogo c |})).

(** [handleKeyPress]: the Enter key generates, any other key does nothing. *)
Definition handleKeyPress (B : Browser) (r : Component) (key : string) : M () :=
  if decide (key = "Enter") then generateQRCode B r None else mret ().

(** The effect that follows a render in which [url], [autoDetectLogo] or
    [logoEnabled] has changed: the favicon is looked for, and the promise is
    left alone. *)
Definition autoDetectEffect (B : Browser) (r : Component) : M () :=
  if autoDetectLogo r && logoEnabled r && JS.truthy (url r) && isValidUrl B (url r)
  then detectFavicon B (url r) ≫= λ _, mret ()
  else mret ().

Definition invalidFileToast : Toast :=
  {| title := "Invalid File";
     description := "Please select an image file";
     variant := Destructive |}.

(** [handleLogoUpload], on the files of the input: the value is the file
    handed to [reader.readAsDataURL], if any. *)
Definition handleLogoUpload (files : list File) : M (option File) :=
  match head files with
  | None => mret None
  | Some file =>
      if negb (JS.startsWith (file_type file) "image/")
      then toast invalidFileToast ;; mret None
      else setLogoFile (Some file) ;; mret (Some file)
  end.

(** [reader.onload], with the data URL the reader made of the file. *)
Definition readerOnload (result : string) : M () := setLogoPreview result.

(** An upload from the change event to the end of the read; [reader] is
    what the FileReader makes of a file, [None] when it fails. *)
Definition uploadLogo (reader : File → option string) (files : list File) : M () :=
  file ← handleLogoUpload files;
  match file with
  | Some f =>
      match reader f with
      | Some result => readerOnload result
      | None => mret ()
      end
  | None => mret ()
  end.

(** The link [downloadQRCode] builds and clicks. *)
Record Anchor := { download : string; href : string }.

Definition downloadedToast : Toast :=
  {| title := "Downloaded!";
     description := "QR code saved to your device";
     variant := Default |}.

(** The name given to a download at time [now]; a time value is an integer
    far below 10^21, which a template literal prints in decimal. *)
Definition downloadName (withLogo : bool) (now : Z) : string :=
  "qr-code-" +:+ (if withLogo then "with-logo-" else "") +:+ pretty now +:+ ".png".

(** [downloadQRCode]: the value is the link clicked, if any. *)
Definition downloadQRCode (r : Component) : M (option Anchor) :=
  if negb (JS.truthy (qrCodeDataUrl r)) then mret None
  else
    now ← Date_now;
    toast downloadedToast ;;
    mret (Some {| download := downloadName (logoEnabled r) now;
                  href := qrCodeDataUrl r |}).

Definition copiedToast : Toast :=
  {| title := "Copied!";
     description := "QR code copied to clipboard";
     variant := Default |}.

Definition copyFailedToast : Toast :=
  {| title := "Copy Failed";
     description := "Unable to copy QR code to clipboard";
     variant := Destructive |}.

(** [copyToClipboard]; [clipboard] tells whether fetching the data URL,
    reading its blob and writing it to the clipboard all succeed. The value
    tells whether the timer of 2000 ms that runs [copiedTimeout] was set. *)
Definition copyToClipboard (clipboard : string → bool) (r : Component) : M bool :=
  if negb (JS.truthy (qrCodeDataUrl r)) then mret false
  else
    try_catch
      ((if clipboard (qrCodeDataUrl r) then mret () else throw "NotAllowedError") ;;
       setCopied true ;;
       toast copiedToast ;;
       mret true)
      (λ error, toast copyFailedToast ;; mret false).

(** The callback of that timer. *)
Definition copiedTimeout : M () := setCopied false.

(** The [disabled] attribute of the generate button. *)
Definition generateDisabled (r : Component) : bool :=
  isGenerating r || negb (JS.truthy (JS.trim (url r))).

(** ** More notions used to state the properties *)

(** A computation that takes between 0 and [ms] milliseconds. *)
Definition takesAtMost {A} (ms : Z) (m : M A) : Prop :=
  ∀ w, clock w ≤ clock (m w).2 ≤ clock w + ms.

(** A computation that leaves a part of the world, given by a projection,
    as it was. *)
Definition keeps {A T} (part : World → T) (m : M A) : Prop :=
  ∀ w, part (m w).2 = part w.

(** The keys of localStorage other than the one of the history. *)
Definition otherKeys (w : World) : gmap string Stored :=
  delete recentUrlsKey (localStorage w).

(** The list shown is the list a reload would show. *)
Definition survivesReload (w : World) : Prop :=
  recentUrls (component (mount w).2) = recentUrls (component w).

(** * Properties *)

(** ** JavaScript strings *)

Lemma truthy_true s : JS.truthy s = true ↔ s ≠ "".
Proof. destruct s; simpl; split; intros; congruence. Qed.

Lemma truthy_false s : JS.truthy s = false ↔ s = "".
Proof. destruct s; simpl; split; intros; congruence. Qed.

Lemma or_else_truthy s b : s ≠ "" → JS.or_else (Some s) b = s.
Proof. intros H. unfold JS.or_else. apply truthy_true in H. by rewrite H. Qed.

Lemma falsy_Some s : s ≠ "" → JS.falsy (Some s) = false.
Proof. intros H. unfold JS.falsy. apply truthy_true in H. by rewrite H. Qed.

(** ** The history list *)

Section history_list.
Implicit Types (l : list RecentUrl) (u : string) (t : Z).

Lemma updated_cons l u t :
  updated l u t
  = RecentUrl.mk u t :: take 4 (filter (λ item, RecentUrl.url item ≠ u) l).
Proof. reflexivity. Qed.

Lemma updated_length l u t : (length (updated l u t) ≤ 5)%nat.
Proof. unfold updated. rewrite length_take. lia. Qed.

Lemma Forall_sublist (P : RecentUrl → Prop) l k :
  k `sublist_of` l → Forall P l → Forall P k.
Proof.
  intros Hs Hl. apply Forall_forall. intros e He.
  eapply Forall_forall in Hl; [exact Hl|]. by eapply elem_of_sublist.
Qed.

Lemma retained_sublist l u :
  take 4 (filter (λ item, RecentUrl.url item ≠ u) l) `sublist_of` l.
Proof. etrans; [apply sublist_take | apply sublist_filter]. Qed.

Lemma retained_other l u e :
  e ∈ take 4 (filter (λ item, RecentUrl.url item ≠ u) l) → RecentUrl.url e ≠ u.
Proof.
  intros He. eapply elem_of_sublist in He; [|apply sublist_take].
  by apply list_elem_of_filter in He as [? _].
Qed.

Lemma retained_none l u :
  filter (λ item, RecentUrl.url item = u)
         (take 4 (filter (λ item, RecentUrl.url item ≠ u) l)) = [].
Proof.
  generalize (retained_other l u).
  induction (take 4 (filter (λ item, RecentUrl.url item ≠ u) l)) as [|e k IH];
    intros Hk; [done|].
  rewrite filter_cons_False; [|apply Hk; left].
  apply IH. intros e' He'. apply Hk. by right.
Qed.

Lemma updated_NoDup l u t :
  NoDup (RecentUrl.url <$> l) → NoDup (RecentUrl.url <$> updated l u t).
Proof.
  intros Hl. rewrite updated_cons, fmap_cons. apply NoDup_cons. split.
  - intros (e & Hu & He)%list_elem_of_fmap. simpl in Hu.
    by apply retained_other in He.
  - eapply sublist_NoDup; [exact Hl|apply fmap_sublist, retained_sublist].

Qed.

Lemma newestFirst_sublist l k : k `sublist_of` l → newestFirst l → newestFirst k.
Proof.
  induction 1 as [|e k l Hs IH|e k l Hs IH]; simpl; [done| |].
  - intros [Hall Hl]. split; [|by apply IH].
    eapply Forall_sublist; [|exact Hall]. done.
  - intros [_ Hl]. by apply IH.
Qed.

Lemma updated_newestFirst l u t :
  newestFirst l → Forall (λ e, RecentUrl.timestamp e ≤ t) l →
  newestFirst (updated l u t).
Proof.
  intros Hl Ht. rewrite updated_cons. simpl. split.
  - eapply Forall_sublist; [|exact Ht]. apply retained_sublist.
  - eapply newestFirst_sublist; [|exact Hl]. apply retained_sublist.
Qed.

Lemma historyOK_nil now : historyOK now [].
Proof. split; simpl; [lia|constructor|done|constructor]. Qed.

Lemma historyOK_later now now' l : now ≤ now' → historyOK now l → historyOK now' l.
Proof.
  intros Hle [? ? ? Hp]. split; try done.
  eapply Forall_impl; [exact Hp|]. simpl. intros. lia.
Qed.

Lemma historyOK_updated now l u : historyOK now l → historyOK now (updated l u now).
Proof.
  intros [Hlen Hnd Hnf Hp]. split.
  - apply updated_length.
  - by apply updated_NoDup.
  - by apply updated_newestFirst.
  - rewrite updated_cons. constructor; [simpl; lia|].
    eapply Forall_sublist; [|exact Hp]. apply retained_sublist.
Qed.

End history_list.

(** ** The history store *)

Section history_store.
Implicit Types (w : World) (r : Component) (past : list Component).

Lemma addToRecentUrls_completes r u w : (addToRecentUrls r u w).1 = Normal ().
Proof. reflexivity. Qed.

Lemma addToRecentUrls_recentUrls r u w :
  recentUrls (component (addToRecentUrls r u w).2) = updated (recentUrls r) u (clock w).
Proof. reflexivity. Qed.

Lemma addToRecentUrls_localStorage r u w :
  localStorage (addToRecentUrls r u w).2
  = <[recentUrlsKey := Serialized (updated (recentUrls r) u (clock w))]> (localStorage w).
Proof. reflexivity. Qed.

Lemma addToRecentUrls_clock r u w : clock (addToRecentUrls r u w).2 = clock w.
Proof. reflexivity. Qed.

Lemma loadRecentUrls_recentUrls w :
  recentUrls (component (loadRecentUrls w).2)
  = match localStorage w !! recentUrlsKey with
    | Some (Serialized entries) => entries
    | _ => recentUrls (component w)
    end.
Proof.
  unfold loadRecentUrls, mbind, M_bind, localStorage_getItem. simpl.
  destruct (localStorage w !! recentUrlsKey) as [[entries|text]|]; try reflexivity.
  simpl. by destruct (JS.truthy text).
Qed.

Lemma loadRecentUrls_frame w :
  localStorage (loadRecentUrls w).2 = localStorage w ∧
  clock (loadRecentUrls w).2 = clock w.
Proof.
  unfold loadRecentUrls, mbind, M_bind, localStorage_getItem. simpl.
  destruct (localStorage w !! recentUrlsKey) as [[entries|text]|]; try done.
  simpl. by destruct (JS.truthy text).
Qed.

Lemma pastOK_later now now' past : now ≤ now' → pastOK now past → pastOK now' past.
Proof.
  intros Hle Hp. eapply Forall_impl; [exact Hp|]. intros r. by apply historyOK_later.
Qed.

Lemma worldOK_later w w' :
  clock w ≤ clock w' → component w' = component w → localStorage w' = localStorage w →
  worldOK w → worldOK w'.
Proof.
  intros Hle Hc Hs [Hl Hst]. split.
  - rewrite Hc. by eapply historyOK_later.
  - intros entries. rewrite Hs. intros H%Hst. by eapply historyOK_later.
Qed.

Lemma render_OK past w k :
  worldOK w → pastOK (clock w) past →
  historyOK (clock w)
    (recentUrls (default (component w) ((component w :: past) !! k))).
Proof.
  intros [Hl _] Hpast.
  destruct ((component w :: past) !! k) as [r|] eqn:Hk; simpl; [|done].
  destruct k as [|k]; simpl in Hk; [by simplify_eq|].
  eapply Forall_forall in Hpast; [exact Hpast|]. by eapply list_elem_of_lookup_2.
Qed.

Lemma historyOp_OK op past w :
  worldOK w → pastOK (clock w) past →
  worldOK (historyOp op past w).2 ∧
  pastOK (clock (historyOp op past w).2) (component w :: past).
Proof.
  intros Hw Hpast. destruct op as [u k| | |ms].
  - (* add *)
    pose proof (render_OK past w k Hw Hpast) as Hr.
    split; [split|].
    + apply (historyOK_updated _ _ u Hr).
    + intros entries. simpl. rewrite lookup_insert_eq. intros [= <-].
      apply (historyOK_updated _ _ u Hr).
    + constructor; [exact (proj1 Hw)|exact Hpast].
  - (* clear *)
    split; [split|].
    + apply historyOK_nil.
    + intros entries. simpl. by rewrite lookup_delete_eq.
    + constructor; [exact (proj1 Hw)|exact Hpast].
  - (* load *)
    unfold historyOp, mount, mbind, M_bind. simpl.
    set (w0 := with_component (λ _, initialComponent) w).
    destruct (loadRecentUrls_frame w0) as [Hs Hc].
    split; [split|].
    + rewrite Hc, loadRecentUrls_recentUrls. simpl.
      destruct (localStorage w !! recentUrlsKey) as [[entries|text]|] eqn:Hk;
        try apply historyOK_nil.
      by apply Hw.
    + intros entries. rewrite Hs, Hc. apply Hw.
    + rewrite Hc. constructor; [exact (proj1 Hw)|exact Hpast].
  - (* wait *)
    assert (clock w ≤ clock w + Z.of_N ms) by lia.
    split; [|constructor].
    + eapply worldOK_later; [..|exact Hw]; done.
    + simpl. eapply historyOK_later; [|exact (proj1 Hw)]. done.
    + by eapply pastOK_later.
Qed.

Lemma runHistory_OK ops : ∀ past w,
  worldOK w → pastOK (clock w) past → worldOK (runHistory ops past w).
Proof.
  induction ops as [|op ops IH]; intros past w Hw Hpast; simpl; [done|].
  destruct (historyOp_OK op past w Hw Hpast) as [Hw' Hpast']. by apply IH.
Qed.

Lemma freshWorld_OK now : worldOK (freshWorld now).
Proof. split; [apply historyOK_nil|]. intros entries. simpl. by rewrite lookup_empty. Qed.

End history_store.

(** ** Adding distinct URLs one after the other *)

Section distinct_adds.
Implicit Types (l : list RecentUrl) (us : list string).

Lemma take_take_app {A} (k m : nat) (xs ys : list A) :
  (k ≤ m)%nat → take k (take m xs ++ ys) = take k (xs ++ ys).
Proof.
  intros Hkm. destruct (decide (length xs ≤ m)%nat) as [Hle|Hgt].
  - by rewrite (take_ge xs m).
  - rewrite (take_app_le (take m xs)); [|rewrite length_take; lia].
    rewrite (take_app_le xs); [|lia].
    rewrite take_take. f_equal. lia.
Qed.

Lemma filter_other_urls l u :
  u ∉ RecentUrl.url <$> l → filter (λ item, RecentUrl.url item ≠ u) l = l.
Proof.
  induction l as [|e l IH]; [done|]. rewrite fmap_cons, not_elem_of_cons.
  intros [Hne Hl]. rewrite filter_cons_True; [|done]. by rewrite IH.
Qed.

Lemma stamped_urls t us : RecentUrl.url <$> stamped t us = us.
Proof.
  induction us as [|u us IH]; [done|].
  unfold stamped in *. rewrite !fmap_cons. simpl. by f_equal.
Qed.

Lemma runHistory_adds us : ∀ past w,
  recentUrls (component (runHistory (sequentialAdds us) past w))
  = foldl (λ l u, updated l u (clock w)) (recentUrls (component w)) us.
Proof.
  induction us as [|u us IH]; intros past w; [done|].
  simpl. by rewrite IH.
Qed.

Lemma foldl_updated t us : ∀ l u0,
  NoDup (u0 :: us) →
  ∃ rest, foldl (λ l u, updated l u t) l (u0 :: us)
          = take 5 (reverse (stamped t (u0 :: us)) ++ rest).
Proof.
  induction us as [|u us IH] using rev_ind; intros l u0 Hnd.
  - eexists. simpl. unfold updated. reflexivity.
  - rewrite app_comm_cons in Hnd. apply NoDup_app in Hnd as (Hnd & Hfresh & _).
    destruct (IH l u0 Hnd) as [rest Hrest].
    rewrite app_comm_cons, foldl_snoc, Hrest. unfold stamped.
    rewrite fmap_app, reverse_app. simpl.
    set (es := reverse (stamped t (u0 :: us))).
    assert (u ∉ RecentUrl.url <$> es) as Hes.
    { unfold es. rewrite fmap_reverse, stamped_urls, elem_of_reverse.
      intros Hu. apply (Hfresh u Hu). by apply list_elem_of_singleton. }
    exists (filter (λ item, RecentUrl.url item ≠ u) (take (5 - length es) rest)).
    unfold updated. rewrite take_app, filter_app.
    rewrite (filter_other_urls (take 5 es)).
    + change (take 5 (?e :: ?xs)) with (e :: take 4 xs). f_equal.
      apply take_take_app. lia.
    + intros Hu. apply Hes. eapply elem_of_sublist; [exact Hu|].
      apply fmap_sublist, sublist_take.
Qed.

Lemma distinct_adds us past w :
  NoDup us → (5 ≤ length us)%nat →
  recentUrls (component (runHistory (sequentialAdds us) past w))
  = take 5 (reverse (stamped (clock w) us)).
Proof.
  intros Hnd Hlen. rewrite runHistory_adds.
  destruct us as [|u0 us]; [simpl in Hlen; lia|].
  destruct (foldl_updated (clock w) us (recentUrls (component w)) u0 Hnd) as [rest ->].
  apply take_app_le. unfold stamped. rewrite length_reverse, length_fmap. done.
Qed.

End distinct_adds.

(** ** The claims about the history store *)

(** C3. Starting from a world whose list and persisted record satisfy the
    invariant (that of a first visit does), after any sequence of history
    operations (add, clear, load, with time passing in between, and an add
    possibly made by a handler of an earlier render) the recent-URLs list
    has at most 5 entries, the URLs of its entries are pairwise distinct, and
    it is ordered newest first. In particular, adding 6 distinct URLs one
    after the other retains exactly the 5 most recently added, the last one
    first. *)
Theorem history_invariant (ops : list HistoryOp) (us : list string) (w : World) :
  worldOK w →
  let l := recentUrls (component (runHistory ops [] w)) in
  ((length l ≤ 5)%nat ∧ NoDup (RecentUrl.url <$> l) ∧ newestFirst l) ∧
  (NoDup us → length us = 6%nat →
   RecentUrl.url <$> recentUrls (component (runHistory (sequentialAdds us) [] w))
   = take 5 (reverse us)).
Proof.
  intros Hw l. split.
  - destruct (runHistory_OK ops [] w Hw) as [[Hlen Hnd Hnf _] _]; [constructor|].
    done.
  - intros Hnd Hlen. rewrite distinct_adds; [|done|lia].
    by rewrite fmap_take, fmap_reverse, stamped_urls.
Qed.

Lemma history_invariant_witness :
  let ops := [OpAdd "https://a.example" 0; OpWait 1500; OpAdd "https://b.example" 0;
              OpClear; OpAdd "https://c.example" 2; OpLoad] in
  let us := ["https://1.example"; "https://2.example"; "https://3.example";
             "https://4.example"; "https://5.example"; "https://6.example"] in
  let l := recentUrls (component (runHistory ops [] Sample.world)) in
  ((length l ≤ 5)%nat ∧ NoDup (RecentUrl.url <$> l) ∧ newestFirst l) ∧
  RecentUrl.url <$> recentUrls (component (runHistory (sequentialAdds us) [] Sample.world))
  = ["https://6.example"; "https://5.example"; "https://4.example";
     "https://3.example"; "https://2.example"].
Proof.
  intros ops us l.
  destruct (history_invariant ops us Sample.world (freshWorld_OK _)) as [Hinv Hsix].
  split; [exact Hinv|]. apply Hsix; [|reflexivity].
  apply (bool_decide_unpack (NoDup us)). vm_compute. exact I.
Defined.

(** C7. Adding a URL (whether or not the list already holds it) leaves exactly
    one entry for it: the new entry, stamped with the current time, at the
    front. The list is the new entry followed by the prior entries with other
    URLs, cut to 5, and it is what is persisted. No entry of a list that is
    not from the future has a later timestamp. *)
Theorem add_moves_url_to_front (r : Component) (newUrl : string) (w : World) :
  let entry := RecentUrl.mk newUrl (clock w) in
  let w' := (addToRecentUrls r newUrl w).2 in
  let l' := recentUrls (component w') in
  (addToRecentUrls r newUrl w).1 = Normal () ∧
  l' = take 5 (entry :: filter (λ item, RecentUrl.url item ≠ newUrl) (recentUrls r)) ∧
  head l' = Some entry ∧
  filter (λ item, RecentUrl.url item = newUrl) l' = [entry] ∧
  localStorage w' !! recentUrlsKey = Some (Serialized l') ∧
  (Forall (λ e, RecentUrl.timestamp e ≤ clock w) (recentUrls r) →
   Forall (λ e, RecentUrl.timestamp e ≤ RecentUrl.timestamp entry) l').
Proof.
  intros entry w' l'. repeat split; try reflexivity.
  - unfold l', w'. rewrite addToRecentUrls_recentUrls, updated_cons.
    rewrite filter_cons_True; [|done]. f_equal. apply retained_none.
  - unfold w'. rewrite addToRecentUrls_localStorage. apply lookup_insert_eq.
  - intros Hold. unfold l', w'. rewrite addToRecentUrls_recentUrls, updated_cons.
    constructor; [done|]. eapply Forall_sublist; [apply retained_sublist|exact Hold].
Qed.

Lemma add_moves_url_to_front_witness :
  let old := [RecentUrl.mk "https://a.example" 1699999999000;
              RecentUrl.mk "https://b.example" 1699999998000] in
  let w := (setRecentUrls old Sample.world).2 in
  let l' := recentUrls (component (addToRecentUrls (component w) "https://b.example" w).2) in
  l' = [RecentUrl.mk "https://b.example" 1700000000000;
        RecentUrl.mk "https://a.example" 1699999999000] ∧
  Forall (λ e, RecentUrl.timestamp e ≤ 1700000000000) l'.
Proof.
  intros old w l'.
  destruct (add_moves_url_to_front (component w) "https://b.example" w)
    as (_ & Hl & _ & _ & _ & Hlatest).
  split; [exact Hl|]. apply Hlatest.
  repeat constructor; simpl; lia.
Defined.

(** C10. The prior entries the add retains are the first four of the prior
    entries with another URL: they are entries of the old list, unchanged
    (same url, same timestamp) and in their old relative order; only
    entries with the added URL are filtered out and only the tail beyond the
    cap is dropped. *)
Theorem add_keeps_prior_entries (r : Component) (newUrl : string) (w : World) :
  let old := recentUrls r in
  let kept := tail (recentUrls (component (addToRecentUrls r newUrl w).2)) in
  kept = take 4 (filter (λ item, RecentUrl.url item ≠ newUrl) old) ∧
  kept `sublist_of` old ∧
  kept `prefix_of` filter (λ item, RecentUrl.url item ≠ newUrl) old ∧
  length kept = (length (filter (λ item, RecentUrl.url item ≠ newUrl) old) `min` 4)%nat.
Proof.
  intros old kept.
  assert (kept = take 4 (filter (λ item, RecentUrl.url item ≠ newUrl) old)) as Hkept
    by reflexivity.
  split; [exact Hkept|]. rewrite Hkept. split; [apply retained_sublist|].
  split; [apply prefix_take|]. rewrite length_take. lia.
Qed.
(** ** Making an image element *)

Section images.
Context (B : Browser).
Implicit Types (w : World) (img : ImageRequest).

Lemma new_Image_throws w :
  new_Image w = (Throw "TypeError: Image is not a constructor", w).
Proof. reflexivity. Qed.

(** The three promises reject before anything is asked of the browser. *)
Lemma isAccessible_throws faviconUrl w :
  isAccessible B faviconUrl w = (Throw "TypeError: Image is not a constructor", w).
Proof. reflexivity. Qed.

Lemma loadQrImage_throws qrDataUrl w :
  loadQrImage B qrDataUrl w = (Throw "TypeError: Image is not a constructor", w).
Proof. reflexivity. Qed.

Lemma loadLogoImage_throws logoUrl w :
  loadLogoImage B logoUrl w = (Throw "TypeError: Image is not a constructor", w).
Proof. reflexivity. Qed.

(** What the rest of an executor would do to the world. *)
Lemma Image_await_world img ms w :
  let w' := (Image_await B img ms w).2 in
  requests w' = requests w ++ [img] ∧ component w' = component w ∧
  localStorage w' = localStorage w ∧ toasts w' = toasts w ∧ clock w ≤ clock w'.
Proof.
  unfold Image_await.
  destruct (Image_load B (length (requests w)) img) as [t iw ih|t|];
    [destruct (t <? ms)%N..|]; simpl; repeat split; lia.
Qed.

End images.

(** ** The compositor *)

Section compositor.
Context (B : Browser).
Implicit Types (w : World).

Lemma try_catch_neverThrows {A} (body : M A) (handler : string → M A) :
  (∀ e, neverThrows (handler e)) → neverThrows (try_catch body handler).
Proof.
  intros Hh w. unfold try_catch. destruct (body w) as [[a|e] w']; [by eexists|].
  apply Hh.
Qed.

Lemma createQRWithLogo_neverThrows qrDataUrl logoUrl :
  neverThrows (createQRWithLogo B qrDataUrl logoUrl).
Proof. apply try_catch_neverThrows. intros e w. by eexists. Qed.

(** Whatever the browser, the body of the compositor throws before the QR
    image is asked for (at the canvas checks, or at [new Image()]), and the
    outer [catch] returns the input: the world is as it was. *)
Lemma createQRWithLogo_run qrDataUrl logoUrl w :
  createQRWithLogo B qrDataUrl logoUrl w = (Normal qrDataUrl, w).
Proof.
  unfold createQRWithLogo, try_catch, mbind, M_bind.
  destruct (document_createElement B); [|done].
  destruct (canvas_getContext B); done.
Qed.

End compositor.

(** ** The claims about the compositor *)

(** C1. For every QR data URL and every logo source, and so for every logo
    source whose image fails to decode or times out, the compositor does not
    fail and returns the QR data URL it was given, character for character. *)
Theorem logo_failure_returns_input
    (B : Browser) (qrDataUrl logoUrl : string) (w : World) :
  (createQRWithLogo B qrDataUrl logoUrl w).1 = Normal qrDataUrl.
Proof. by rewrite createQRWithLogo_run. Qed.

(** C8. The compositor never throws to its caller, and when the canvas
    cannot be created, its 2D context cannot be had, or the QR image does
    not decode within its 10 seconds (error or timeout), it returns the QR
    data URL it was given. *)
Theorem compositor_fails_soft (B : Browser) (qrDataUrl logoUrl : string) (w : World) :
  (∃ dataUrl, (createQRWithLogo B qrDataUrl logoUrl w).1 = Normal dataUrl) ∧
  (document_createElement B = false ∨ canvas_getContext B = false ∨
   Image_within B (length (requests w)) (imageRequest qrDataUrl) 10000 = None →
   (createQRWithLogo B qrDataUrl logoUrl w).1 = Normal qrDataUrl).
Proof.
  split; [apply createQRWithLogo_neverThrows|].
  intros _. by rewrite createQRWithLogo_run.
Qed.

Lemma compositor_fails_soft_witness :
  let B := {| URL_new := Sample.parse; Image_load := Sample.offline;
              document_createElement := false; canvas_getContext := true;
              canvas_toDataURL := Sample.encodePNG;
              QRCode_toDataURL := Sample.encodeQR |} in
  (createQRWithLogo B "data:image/png;base64,qr(https://example.com)"
     "https://example.com/favicon.ico" Sample.world).1
  = Normal "data:image/png;base64,qr(https://example.com)" ∧
  (createQRWithLogo (Sample.browser (λ _ _, Fails 30))
     "data:image/png;base64,qr(https://example.com)"
     "https://example.com/favicon.ico" Sample.world).1
  = Normal "data:image/png;base64,qr(https://example.com)".
Proof.
  intros B. split.
  - apply (compositor_fails_soft B). left. reflexivity.
  - apply (compositor_fails_soft (Sample.browser (λ _ _, Fails 30))).
    right. right. reflexivity.
Defined.

(** ** Computations that never throw, computations that keep the history *)

Section combinators.
Context {A C : Type}.
Implicit Types (m : M A) (f : A → M C).

Lemma neverThrows_ret (a : A) : neverThrows (mret a).
Proof. intros w. by eexists. Qed.

Lemma neverThrows_modify g : neverThrows (modify g).
Proof. intros w. by eexists. Qed.

Lemma neverThrows_bind m f :
  neverThrows m → (∀ a, neverThrows (f a)) → neverThrows (m ≫= f).
Proof.
  intros Hm Hf w. unfold mbind, M_bind. destruct (Hm w) as [a Ha].
  destruct (m w) as [c w']. simpl in Ha. subst c. apply Hf.
Qed.

Lemma neverThrows_try_finally m (final : M ()) :
  neverThrows m → neverThrows final → neverThrows (try_finally m final).
Proof.
  intros Hm Hfin w. unfold try_finally. destruct (Hm w) as [a Ha].
  destruct (m w) as [c w']. simpl in Ha. subst c.
  destruct (Hfin w') as [[] Hu]. destruct (final w') as [c w'']. simpl in Hu.
  subst c. by eexists.
Qed.

Lemma keepsHistory_ret (a : A) : keepsHistory (mret a).
Proof. done. Qed.

Lemma keepsHistory_throw e : keepsHistory (@throw A e).
Proof. done. Qed.

Lemma keepsHistory_bind m f :
  keepsHistory m → (∀ a, keepsHistory (f a)) → keepsHistory (m ≫= f).
Proof.
  intros Hm Hf w. unfold mbind, M_bind. specialize (Hm w).
  destruct (m w) as [[a|e] w']; simpl in *; [|done].
  destruct (Hf a w') as [-> ->]. done.
Qed.

Lemma keepsHistory_try_catch m (handler : string → M A) :
  keepsHistory m → (∀ e, keepsHistory (handler e)) →
  keepsHistory (try_catch m handler).
Proof.
  intros Hm Hh w. unfold try_catch. specialize (Hm w).
  destruct (m w) as [[a|e] w']; simpl in *; [done|].
  destruct (Hh e w') as [-> ->]. done.
Qed.

Lemma keepsHistory_try_finally m (final : M ()) :
  keepsHistory m → keepsHistory final → keepsHistory (try_finally m final).
Proof.
  intros Hm Hfin w. unfold try_finally. specialize (Hm w).
  destruct (m w) as [c w']. specialize (Hfin w').
  destruct (final w') as [[[]|e] w'']; simpl in *; destruct Hfin as [-> ->]; done.
Qed.

End combinators.

Lemma keepsHistory_toast t : keepsHistory (toast t).
Proof. done. Qed.

Lemma keepsHistory_setUrl v : keepsHistory (setUrl v).
Proof. done. Qed.

Lemma keepsHistory_setQrCodeDataUrl v : keepsHistory (setQrCodeDataUrl v).
Proof. done. Qed.

Lemma keepsHistory_setIsGenerating v : keepsHistory (setIsGenerating v).
Proof. done. Qed.

Lemma keepsHistory_setDetectedFavicon v : keepsHistory (setDetectedFavicon v).
Proof. done. Qed.

Lemma keepsHistory_setIsDetectingLogo v : keepsHistory (setIsDetectingLogo v).
Proof. done. Qed.

Lemma keepsHistory_Image_await B img ms : keepsHistory (Image_await B img ms).
Proof.
  intros w. destruct (Image_await_world B img ms w) as (_ & -> & -> & _). done.
Qed.

Lemma keepsHistory_new_Image : keepsHistory new_Image.
Proof. done. Qed.

Create HintDb handlers discriminated.

#[export] Hint Resolve neverThrows_ret neverThrows_modify neverThrows_bind
  neverThrows_try_finally try_catch_neverThrows
  keepsHistory_ret keepsHistory_throw keepsHistory_bind keepsHistory_try_catch
  keepsHistory_try_finally keepsHistory_toast keepsHistory_setUrl
  keepsHistory_setQrCodeDataUrl keepsHistory_setIsGenerating
  keepsHistory_setDetectedFavicon keepsHistory_setIsDetectingLogo
  keepsHistory_Image_await keepsHistory_new_Image : handlers.

(** Splits a handler along its binds, its tries and its branches, and closes
    the leaves with the lemmas of the database. *)
Ltac handler_cases :=
  repeat first
    [ progress intros
    | solve [auto with handlers]
    | match goal with
      | |- neverThrows (if ?b then _ else _) => destruct b
      | |- keepsHistory (if ?b then _ else _) => destruct b
      | |- neverThrows (match ?x with _ => _ end) => destruct x
      | |- keepsHistory (match ?x with _ => _ end) => destruct x
      end
    | apply neverThrows_bind
    | apply keepsHistory_bind
    | apply try_catch_neverThrows
    | apply keepsHistory_try_catch
    | apply neverThrows_try_finally
    | apply keepsHistory_try_finally ].

(** ** The favicon resolver *)

Section favicon.
Context (B : Browser).
Implicit Types (w : World) (sources : list string).

Lemma neverThrows_toast t : neverThrows (toast t).
Proof. apply neverThrows_modify. Qed.

Lemma keepsHistory_isAccessible faviconUrl : keepsHistory (isAccessible B faviconUrl).
Proof. unfold isAccessible. handler_cases. Qed.

Lemma keepsHistory_testFaviconSources sources :
  keepsHistory (testFaviconSources B sources).
Proof.
  induction sources as [|u sources IH]; simpl; [apply keepsHistory_ret|].
  pose proof (keepsHistory_isAccessible u). handler_cases.
Qed.

Lemma neverThrows_testFaviconSources sources :
  neverThrows (testFaviconSources B sources).
Proof.
  induction sources as [|u sources IH]; simpl; [apply neverThrows_ret|].
  handler_cases.
Qed.

(** The try on one candidate: the promise rejects, the [catch] goes on to
    the next candidate, and the world is as it was. *)
Lemma testFaviconSources_one faviconUrl sources w :
  testFaviconSources B (faviconUrl :: sources) w = testFaviconSources B sources w.
Proof. reflexivity. Qed.


(** The loop runs to its end, whatever the candidates. *)
Lemma testFaviconSources_run sources w :
  testFaviconSources B sources w = (Normal None, w).
Proof.
  induction sources as [|u sources IH]; [done|].
  by rewrite testFaviconSources_one.
Qed.


End favicon.

Section resolver.
Context (B : Browser).
Implicit Types (w : World).

Lemma detectFavicon_invalid urlString w :
  isValidUrl B urlString = false → detectFavicon B urlString w = (Normal None, w).
Proof. intros H. unfold detectFavicon. by rewrite H. Qed.

Lemma isValidUrl_true urlString :
  isValidUrl B urlString = true ↔ ∃ urlObj, URL_new B urlString = Some urlObj.
Proof.
  unfold isValidUrl. destruct (URL_new B urlString); split; eauto; [done|].
  by intros [? ?].
Qed.

(** [detectFavicon] on a URL that parses, in terms of its loop. *)
Lemma detectFavicon_valid urlString urlObj w :
  URL_new B urlString = Some urlObj →
  detectFavicon B urlString w
  = let tested := testFaviconSources B (faviconSources urlObj)
                    (setIsDetectingLogo true w).2 in
    match tested.1 with
    | Normal (Some u) => (Normal (Some u), (setIsDetectingLogo false tested.2).2)
    | Normal None =>
        (Normal (Some (fallbackFavicon urlObj)),
         (setIsDetectingLogo false
            (setDetectedFavicon (fallbackFavicon urlObj) tested.2).2).2)
    | Throw e =>
        (Normal None, (setIsDetectingLogo false (setDetectedFavicon "" tested.2).2).2)
    end.
Proof.
  intros Hu. unfold detectFavicon, isValidUrl, new_URL. rewrite Hu.
  unfold try_finally, try_catch, mbind, M_bind, mret, M_ret,
    setIsDetectingLogo, setDetectedFavicon, modify.
  cbn [negb]. cbv beta iota.
  generalize (testFaviconSources B (faviconSources urlObj)). intros loop.
  simpl. destruct (loop _) as [[[u|]|e] w']; reflexivity.
Qed.

(** On a URL that parses every try is skipped and the fallback of lines
    134 to 138 is taken. *)
Lemma detectFavicon_run urlString urlObj w :
  URL_new B urlString = Some urlObj →
  detectFavicon B urlString w
  = (Normal (Some (fallbackFavicon urlObj)),
     (setIsDetectingLogo false
        (setDetectedFavicon (fallbackFavicon urlObj) (setIsDetectingLogo true w).2).2).2).
Proof.
  intros Hu. rewrite (detectFavicon_valid _ _ _ Hu). cbv zeta.
  by rewrite testFaviconSources_run.
Qed.

Lemma neverThrows_detectFavicon urlString : neverThrows (detectFavicon B urlString).
Proof.
  intros w. destruct (URL_new B urlString) as [urlObj|] eqn:Hu.
  - rewrite (detectFavicon_valid _ _ _ Hu). cbv zeta.
    destruct (testFaviconSources B (faviconSources urlObj)
                (setIsDetectingLogo true w).2) as [[[u|]|e] w']; by eexists.
  - rewrite detectFavicon_invalid; [by eexists|]. unfold isValidUrl. by rewrite Hu.
Qed.

Lemma keepsHistory_detectFavicon urlString : keepsHistory (detectFavicon B urlString).
Proof.
  intros w. destruct (URL_new B urlString) as [urlObj|] eqn:Hu.
  - rewrite (detectFavicon_valid _ _ _ Hu). cbv zeta.
    destruct (keepsHistory_testFaviconSources B (faviconSources urlObj)
                (setIsDetectingLogo true w).2) as [Hl Hs].
    destruct (testFaviconSources B (faviconSources urlObj)
                (setIsDetectingLogo true w).2) as [[[u|]|e] w']; simpl in *; done.
  - rewrite detectFavicon_invalid; [done|]. unfold isValidUrl. by rewrite Hu.
Qed.

End resolver.

(** ** The claims about the favicon resolver *)

(** C9 (as amended). The favicon resolver returns null at once, with no
    request made and nothing changed, on every string that [new URL] rejects,
    and it does not return null on any string that [new URL] accepts, whether
    the URL has a host or not. *)
Theorem favicon_null_iff_invalid (B : Browser) (urlString : string) (w : World) :
  (isValidUrl B urlString = false → detectFavicon B urlString w = (Normal None, w)) ∧
  (isValidUrl B urlString = true →
   ∃ logoUrl, (detectFavicon B urlString w).1 = Normal (Some logoUrl)).
Proof.
  split; [apply detectFavicon_invalid|].
  intros [urlObj Hu]%isValidUrl_true. rewrite (detectFavicon_valid _ _ _ _ Hu). cbv zeta.
  destruct (neverThrows_testFaviconSources B (faviconSources urlObj)
              (setIsDetectingLogo true w).2) as [[u|] ->]; by eexists.
Qed.

Lemma favicon_null_iff_invalid_witness :
  detectFavicon (Sample.browser Sample.offline) "not-a-url" Sample.world
  = (Normal None, Sample.world) ∧
  ∃ logoUrl,
    (detectFavicon (Sample.browser Sample.offline) "https://example.com" Sample.world).1
    = Normal (Some logoUrl).
Proof.
  split.
  - apply (favicon_null_iff_invalid (Sample.browser Sample.offline) "not-a-url").
    reflexivity.
  - apply (favicon_null_iff_invalid (Sample.browser Sample.offline) "https://example.com").
    reflexivity.
Defined.

(** C9 (as stated) fails. [new URL] accepts the address mailto:a@b.c, which
    has a scheme and no host; on it the resolver does not return null: it
    returns the favicon service's URL for the empty domain. *)
Lemma favicon_not_null_without_host :
  let B := Sample.mailer in
  URL_new B "mailto:a@b.c" = Some (URL.mk "mailto:" "") ∧
  claimedValidUrl B "mailto:a@b.c" = false ∧
  (detectFavicon B "mailto:a@b.c" Sample.world).1
  = Normal (Some "https://www.google.com/s2/favicons?domain=&sz=64").
Proof. repeat split. Qed.




(** ** The generation orchestrator *)

Section orchestrator.
Context (B : Browser).
Implicit Types (w : World) (r : Component).

Lemma neverThrows_chooseLogoUrl r targetUrl : neverThrows (chooseLogoUrl B r targetUrl).
Proof.
  unfold chooseLogoUrl. pose proof (neverThrows_detectFavicon B targetUrl).
  handler_cases.
Qed.

Lemma keepsHistory_chooseLogoUrl r targetUrl : keepsHistory (chooseLogoUrl B r targetUrl).
Proof.
  unfold chooseLogoUrl. pose proof (keepsHistory_detectFavicon B targetUrl).
  handler_cases.
Qed.

Lemma keepsHistory_createQRWithLogo qrDataUrl logoUrl :
  keepsHistory (createQRWithLogo B qrDataUrl logoUrl).
Proof.
  unfold createQRWithLogo, loadQrImage, loadLogoImage, toDataURL. handler_cases.
Qed.

Lemma neverThrows_addLogo r targetUrl qrDataUrl :
  neverThrows (addLogo B r targetUrl qrDataUrl).
Proof.
  unfold addLogo. pose proof (neverThrows_chooseLogoUrl r targetUrl).
  pose proof neverThrows_toast. pose proof (createQRWithLogo_neverThrows B).
  handler_cases.
Qed.

Lemma keepsHistory_addLogo r targetUrl qrDataUrl :
  keepsHistory (addLogo B r targetUrl qrDataUrl).
Proof.
  unfold addLogo. pose proof (keepsHistory_chooseLogoUrl r targetUrl).
  pose proof keepsHistory_createQRWithLogo. handler_cases.
Qed.

Lemma generateQRCode_blank r inputUrl w :
  JS.trim (JS.or_else inputUrl (url r)) = "" →
  generateQRCode B r inputUrl w = toast urlRequiredToast w.
Proof. intros H. unfold generateQRCode. by rewrite H. Qed.

Lemma generateQRCode_invalid r inputUrl w :
  JS.trim (JS.or_else inputUrl (url r)) ≠ "" →
  isValidUrl B (JS.or_else inputUrl (url r)) = false →
  generateQRCode B r inputUrl w = toast invalidUrlToast w.
Proof.
  intros Ht Hv. unfold generateQRCode. apply truthy_true in Ht. by rewrite Ht, Hv.
Qed.

(** [generateQRCode] on an input it accepts and the encoder encodes, in
    terms of its logo step. *)
Lemma generateQRCode_encoded r inputUrl w qrDataUrl :
  let targetUrl := JS.or_else inputUrl (url r) in
  JS.trim targetUrl ≠ "" → isValidUrl B targetUrl = true →
  QRCode_toDataURL B targetUrl (qrOptions r) = Some qrDataUrl →
  generateQRCode B r inputUrl w
  = let logo := addLogo B r targetUrl qrDataUrl (setIsGenerating true w).2 in
    match logo.1 with
    | Normal finalQrDataUrl =>
        let shown := (setQrCodeDataUrl finalQrDataUrl logo.2).2 in
        let recorded :=
          if JS.falsy inputUrl then (addToRecentUrls r targetUrl shown).2 else shown in
        (Normal (), (setIsGenerating false (toast (generatedToast r) recorded).2).2)
    | Throw e =>
        (Normal (), (setIsGenerating false (toast generationFailedToast logo.2).2).2)
    end.
Proof.
  intros targetUrl Ht Hv Hq. unfold generateQRCode. fold targetUrl.
  apply truthy_true in Ht. rewrite Ht, Hv.
  unfold QRCode_toDataURL_await. rewrite Hq.
  unfold try_finally, try_catch, mbind, M_bind, mret, M_ret, setIsGenerating, modify.
  cbn [negb fst snd]. cbv beta iota.
  generalize (addLogo B r targetUrl qrDataUrl). intros logo.
  destruct (logo _) as [[final|e] w1]; [|reflexivity].
  destruct (JS.falsy inputUrl); reflexivity.
Qed.

Lemma generateQRCode_rejected r inputUrl w :
  let targetUrl := JS.or_else inputUrl (url r) in
  JS.trim targetUrl ≠ "" → isValidUrl B targetUrl = true →
  QRCode_toDataURL B targetUrl (qrOptions r) = None →
  generateQRCode B r inputUrl w
  = (Normal (),
     (setIsGenerating false (toast generationFailedToast (setIsGenerating true w).2).2).2).
Proof.
  intros targetUrl Ht Hv Hq. unfold generateQRCode. fold targetUrl.
  apply truthy_true in Ht. rewrite Ht, Hv.
  unfold QRCode_toDataURL_await. rewrite Hq. reflexivity.
Qed.

Lemma keepsHistory_generateQRCode r u : u ≠ "" → keepsHistory (generateQRCode B r (Some u)).
Proof.
  intros Hu w. pose proof (falsy_Some u Hu) as Hf.
  destruct (decide (JS.trim (JS.or_else (Some u) (url r)) = "")) as [Ht|Ht].
  { by rewrite generateQRCode_blank. }
  destruct (isValidUrl B (JS.or_else (Some u) (url r))) eqn:Hv.
  2: { by rewrite generateQRCode_invalid. }
  destruct (QRCode_toDataURL B (JS.or_else (Some u) (url r)) (qrOptions r))
    as [qrDataUrl|] eqn:Hq.
  2: { by rewrite generateQRCode_rejected. }
  rewrite (generateQRCode_encoded r (Some u) w qrDataUrl Ht Hv Hq). cbv zeta.
  rewrite Hf.
  pose proof (keepsHistory_addLogo r (JS.or_else (Some u) (url r)) qrDataUrl
                (setIsGenerating true w).2) as [Hl Hs].
  destruct (addLogo B r _ qrDataUrl _) as [[final|e] w1]; simpl in *; done.
Qed.


End orchestrator.

(** What [generateQRCode] does to the history list: nothing, or one add of a
    URL that is not blank. *)
Lemma generateQRCode_records (B : Browser) (r : Component) (inputUrl : option string)
    (w : World) :
  let targetUrl := JS.or_else inputUrl (url r) in
  let w' := (generateQRCode B r inputUrl w).2 in
  recentUrls (component w') = recentUrls (component w) ∨
  JS.trim targetUrl ≠ "" ∧
  ∃ now, recentUrls (component w') = updated (recentUrls r) targetUrl now.
Proof.
  intros targetUrl w'. unfold w'.
  destruct (decide (JS.trim targetUrl = "")) as [Ht|Ht].
  { left. by rewrite generateQRCode_blank. }
  destruct (isValidUrl B targetUrl) eqn:Hv.
  2: { left. by rewrite generateQRCode_invalid. }
  destruct (QRCode_toDataURL B targetUrl (qrOptions r)) as [qrDataUrl|] eqn:Hq.
  2: { left. by rewrite generateQRCode_rejected. }
  rewrite (generateQRCode_encoded B r inputUrl w qrDataUrl Ht Hv Hq). cbv zeta.
  fold targetUrl.
  pose proof (keepsHistory_addLogo B r targetUrl qrDataUrl (setIsGenerating true w).2)
    as [Hl _].
  destruct (addLogo B r targetUrl qrDataUrl _) as [[final|e] w1]; simpl in Hl;
    [|by left].
  destruct (JS.falsy inputUrl); [|by left].
  right. split; [done|]. by exists (clock w1).
Qed.

(** ** The claims about the generation orchestrator *)

(** C2. When the input (the argument if it is given and not empty, the URL
    field otherwise) is empty or whitespace, or [new URL] rejects it,
    [generateQRCode] produces no image and records nothing: the state of the
    component (the displayed QR data URL and the history list with it),
    localStorage and the image requests are unchanged, and exactly one
    notice, a destructive one, is surfaced: "URL Required" or
    "Invalid URL". *)
Theorem invalid_input_rejected
    (B : Browser) (r : Component) (inputUrl : option string) (w : World) :
  let targetUrl := JS.or_else inputUrl (url r) in
  JS.trim targetUrl = "" ∨ isValidUrl B targetUrl = false →
  let w' := (generateQRCode B r inputUrl w).2 in
  (generateQRCode B r inputUrl w).1 = Normal () ∧
  component w' = component w ∧
  qrCodeDataUrl (component w') = qrCodeDataUrl (component w) ∧
  recentUrls (component w') = recentUrls (component w) ∧
  localStorage w' = localStorage w ∧
  requests w' = requests w ∧
  ∃ notice, toasts w' = toasts w ++ [notice] ∧ variant notice = Destructive ∧
            (notice = urlRequiredToast ∨ notice = invalidUrlToast).
Proof.
  intros targetUrl Hbad w'. unfold w'.
  destruct (decide (JS.trim targetUrl = "")) as [Ht|Ht].
  - rewrite generateQRCode_blank; [|done]. repeat split.
    exists urlRequiredToast. auto.
  - destruct Hbad as [?|Hv]; [done|].
    rewrite generateQRCode_invalid; [|done..]. repeat split.
    exists invalidUrlToast. auto.
Qed.

Lemma invalid_input_rejected_witness :
  let w' := (generateQRCode (Sample.browser Sample.offline)
               (Sample.typed "not-a-url" false) None Sample.world).2 in
  component w' = component Sample.world ∧
  localStorage w' = localStorage Sample.world ∧
  toasts w' = [invalidUrlToast].
Proof.
  intros w'.
  destruct (invalid_input_rejected (Sample.browser Sample.offline)
              (Sample.typed "not-a-url" false) None Sample.world)
    as (_ & Hc & _ & _ & Hs & _ & _).
  - right. reflexivity.
  - split; [exact Hc|]. split; [exact Hs|reflexivity].
Defined.



(** C6. A generation started by selecting a history entry (an explicit,
    non-empty [inputUrl]) leaves the history alone, the list shown and the
    persisted record alike, whatever its outcome; when it succeeds the image
    is regenerated all the same. A successful generation started by a direct
    submission (no [inputUrl]) records the URL. *)
Theorem history_recorded_on_submission_only
    (B : Browser) (r : Component) (item : RecentUrl) (w : World) :
  RecentUrl.url item ≠ "" →
  let u := RecentUrl.url item in
  (recentUrls (component (generateQRCode B r (Some u) w).2) = recentUrls (component w) ∧
   localStorage (generateQRCode B r (Some u) w).2 = localStorage w ∧
   recentUrls (component (selectRecentUrl B r item w).2) = recentUrls (component w) ∧
   localStorage (selectRecentUrl B r item w).2 = localStorage w) ∧
  (∀ qrDataUrl,
     JS.trim u ≠ "" → isValidUrl B u = true →
     QRCode_toDataURL B u (qrOptions r) = Some qrDataUrl →
     (addLogo B r u qrDataUrl (setIsGenerating true w).2).1
     = Normal (qrCodeDataUrl (component (generateQRCode B r (Some u) w).2))) ∧
  (∀ qrDataUrl,
     JS.trim (url r) ≠ "" → isValidUrl B (url r) = true →
     QRCode_toDataURL B (url r) (qrOptions r) = Some qrDataUrl →
     let w' := (submit B r w).2 in
     ∃ now,
       recentUrls (component w') = updated (recentUrls r) (url r) now ∧
       localStorage w' !! recentUrlsKey
       = Some (Serialized (updated (recentUrls r) (url r) now))).
Proof.
  intros Hu u. split; [|split].
  - destruct (keepsHistory_generateQRCode B r u Hu w) as [Hl Hs].
    repeat split; [exact Hl|exact Hs|..];
      unfold selectRecentUrl, mbind, M_bind; simpl;
      by destruct (keepsHistory_generateQRCode B r u Hu (setUrl u w).2).
  - intros qrDataUrl Ht Hv Hq.
    pose proof (or_else_truthy u (url r) Hu) as Htarget.
    rewrite (generateQRCode_encoded B r (Some u) w qrDataUrl); rewrite ?Htarget; [|done..].
    cbv zeta. rewrite (falsy_Some u Hu).
    destruct (neverThrows_addLogo B r u qrDataUrl (setIsGenerating true w).2) as [final Hf].
    destruct (addLogo B r u qrDataUrl _) as [c w1]. simpl in Hf. subst c. reflexivity.
  - intros qrDataUrl Ht Hv Hq w'. unfold w', submit.
    rewrite (generateQRCode_encoded B r None w qrDataUrl); [|done..].
    cbv zeta. cbn [JS.falsy JS.or_else].
    destruct (neverThrows_addLogo B r (url r) qrDataUrl (setIsGenerating true w).2)
      as [final Hf].
    destruct (addLogo B r (url r) qrDataUrl _) as [c w1]. simpl in Hf. subst c.
    exists (clock w1). split; [reflexivity|].
    cbn [fst snd]. apply lookup_insert_eq.
Qed.

Lemma history_recorded_on_submission_only_witness :
  let B := Sample.browser Sample.offline in
  let r := Sample.typed "https://example.com" false in
  let item := RecentUrl.mk "https://example.com" 1699999999000 in
  recentUrls (component (selectRecentUrl B r item Sample.world).2) = [] ∧
  localStorage (selectRecentUrl B r item Sample.world).2 = ∅ ∧
  qrCodeDataUrl (component (generateQRCode B r (Some "https://example.com") Sample.world).2)
  = "data:image/png;base64,qr(https://example.com)" ∧
  ∃ now, recentUrls (component (submit B r Sample.world).2)
         = [RecentUrl.mk "https://example.com" now].
Proof.
  intros B r item.
  destruct (history_recorded_on_submission_only B r item Sample.world)
    as ((_ & _ & Hl & Hs) & Himg & Hrec); [done|].
  split; [exact Hl|]. split; [exact Hs|]. split.
  - specialize (Himg "data:image/png;base64,qr(https://example.com)").
    symmetry.
    refine (f_equal (λ c, match c with Normal a => a | Throw _ => "" end)
              (Himg _ _ _)); [done|reflexivity..].
  - destruct (Hrec "data:image/png;base64,qr(https://example.com)")
      as (now & Hnow & _); [done|reflexivity..|].
    exists now. exact Hnow.
Defined.

(** * Further properties *)

(** ** The history store *)

Section history_more.
Implicit Types (l : list RecentUrl) (u : string) (t : Z) (w : World).

Lemma filter_all {A} (P : A → Prop) `{!∀ x, Decision (P x)} (k : list A) :
  Forall P k → filter P k = k.
Proof.
  induction 1 as [|x k Hx _ IH]; [done|]. rewrite filter_cons_True; [|done].
  by rewrite IH.
Qed.

Lemma retained_all_other l u :
  Forall (λ item, RecentUrl.url item ≠ u)
         (take 4 (filter (λ item, RecentUrl.url item ≠ u) l)).
Proof. apply Forall_forall. intros e. apply retained_other. Qed.

Lemma clearRecentUrls_run w :
  clearRecentUrls w
  = (Normal (),
     {| component := (setRecentUrls [] w).2.(component);
        localStorage := delete recentUrlsKey (localStorage w);
        clock := clock w;
        toasts := toasts w ++ [{| title := "History Cleared";
                                  description := "Recent URLs have been cleared";
                                  variant := Default |}];
        requests := requests w |}).
Proof. reflexivity. Qed.

Lemma mount_recentUrls w :
  recentUrls (component (mount w).2)
  = match localStorage w !! recentUrlsKey with
    | Some (Serialized entries) => entries
    | _ => []
    end.
Proof.
  unfold mount, mbind, M_bind. simpl.
  rewrite loadRecentUrls_recentUrls. simpl.
  by destruct (localStorage w !! recentUrlsKey) as [[?|?]|].
Qed.

Lemma mount_localStorage w : localStorage (mount w).2 = localStorage w.
Proof.
  unfold mount, mbind, M_bind. simpl.
  by destruct (loadRecentUrls_frame (with_component (λ _, initialComponent) w)) as [-> _].
Qed.

Lemma historyOp_survivesReload op past w :
  survivesReload w → survivesReload (historyOp op past w).2.
Proof.
  unfold survivesReload. rewrite !mount_recentUrls. intros Hw.
  destruct op as [u k| | |ms].
  - simpl. by rewrite lookup_insert_eq.
  - simpl. by rewrite lookup_delete_eq.
  - simpl. rewrite mount_localStorage, mount_recentUrls. done.
  - done.
Qed.

End history_more.

(** X1. Clearing the history empties the list, removes the persisted record
    and shows one notice; a reload after it starts with an empty list. *)
Theorem clear_then_reload (w : World) :
  let w1 := (clearRecentUrls w).2 in
  (clearRecentUrls w).1 = Normal () ∧
  recentUrls (component w1) = [] ∧
  localStorage w1 !! recentUrlsKey = None ∧
  (∃ notice, toasts w1 = toasts w ++ [notice] ∧ title notice = "History Cleared") ∧
  recentUrls (component (mount w1).2) = [].
Proof.
  intros w1. unfold w1. rewrite clearRecentUrls_run. simpl.
  split; [done|]. split; [done|]. split; [apply lookup_delete_eq|].
  split; [by eexists|]. rewrite mount_recentUrls. simpl. by rewrite lookup_delete_eq.
Qed.

(** X2. At any point of a visit that started with no persisted record, after
    any adds, clears, reloads and waits, a reload shows the list that is shown
    now: the persisted record mirrors the list. *)
Theorem history_survives_reload (ops : list HistoryOp) (now : Z) :
  let w := runHistory ops [] (freshWorld now) in
  recentUrls (component (mount w).2) = recentUrls (component w).
Proof.
  intros w. unfold w.
  assert (survivesReload (freshWorld now)) as Hfresh by reflexivity.
  revert Hfresh. generalize (freshWorld now). generalize (@nil Component).
  induction ops as [|op ops IH]; intros past w0 Hw0; [exact Hw0|].
  simpl. apply IH. by apply historyOp_survivesReload.
Qed.

(** X3. The effect that reads the persisted record never throws. When there
    is no record, or one [JSON.parse] rejects, it changes nothing: the list
    stays as it is (empty on mount) and the bad record stays in localStorage. *)
Theorem load_skips_bad_record (w : World) :
  (∃ u, (loadRecentUrls w).1 = Normal u) ∧
  (localStorage w !! recentUrlsKey = None ∨
   (∃ text, localStorage w !! recentUrlsKey = Some (Garbled text)) →
   loadRecentUrls w = (Normal (), w) ∧ recentUrls (component (mount w).2) = []).
Proof.
  split.
  - unfold loadRecentUrls, mbind, M_bind, localStorage_getItem. simpl.
    destruct (localStorage w !! recentUrlsKey) as [[entries|text]|]; simpl;
      [by eexists| |by eexists].
    destruct (JS.truthy text); by eexists.
  - intros Hbad. rewrite mount_recentUrls.
    unfold loadRecentUrls, mbind, M_bind, localStorage_getItem. simpl.
    destruct Hbad as [->|[text ->]]; [done|]. simpl.
    by destruct (JS.truthy text).
Qed.

Lemma load_skips_bad_record_witness :
  let w := (localStorage_setItem recentUrlsKey (Garbled "[{") Sample.world).2 in
  loadRecentUrls w = (Normal (), w) ∧ recentUrls (component (mount w).2) = [].
Proof.
  intros w. apply (load_skips_bad_record w). right. by exists "[{".
Defined.

(** X4. Adding the same URL twice in succession, the second time [ms]
    milliseconds later and from the render that followed the first add, gives
    the list and the persisted record of a single add made at the later
    time. *)
Theorem readd_same_url (newUrl : string) (ms : N) (w : World) :
  let add := handle (λ r, addToRecentUrls r newUrl) in
  let twice := (add (wait ms (add w).2).2).2 in
  let once := (add (wait ms w).2).2 in
  recentUrls (component twice) = recentUrls (component once) ∧
  localStorage twice = localStorage once.
Proof.
  intros add twice once.
  assert (∀ l t1 t2, updated (updated l newUrl t1) newUrl t2 = updated l newUrl t2) as Hre.
  { intros l t1 t2. rewrite (updated_cons (updated _ _ _)), (updated_cons l newUrl t1).
    rewrite filter_cons_False; [|by intros ?].
    rewrite filter_all; [|apply retained_all_other].
    by rewrite take_take. }
  unfold twice, once, add, handle. simpl. rewrite Hre. split; [done|].
  by rewrite insert_insert_eq.
Qed.

(** X5. Adding a URL the list does not hold puts it in front of the first
    four prior entries: a list of fewer than 5 entries keeps them all, and a
    full list loses exactly its last, oldest entry. *)
Theorem add_new_url_evicts_oldest (r : Component) (newUrl : string) (w : World) :
  newUrl ∉ RecentUrl.url <$> recentUrls r →
  let entry := RecentUrl.mk newUrl (clock w) in
  let l' := recentUrls (component (addToRecentUrls r newUrl w).2) in
  l' = entry :: take 4 (recentUrls r) ∧
  (length (recentUrls r) < 5 → l' = entry :: recentUrls r)%nat ∧
  (∀ kept oldest, recentUrls r = kept ++ [oldest] → length kept = 4%nat →
                  l' = entry :: kept).
Proof.
  intros Hnew entry l'.
  assert (l' = entry :: take 4 (recentUrls r)) as Hl'.
  { unfold l'. rewrite addToRecentUrls_recentUrls, updated_cons.
    by rewrite filter_other_urls. }
  split; [exact Hl'|]. split.
  - intros Hlen. rewrite Hl', take_ge; [done|lia].
  - intros kept oldest Hr Hkept. rewrite Hl', Hr. f_equal.
    by rewrite take_app_length'.
Qed.

Lemma add_new_url_evicts_oldest_witness :
  let old := stamped 1699999999000 ["https://5.example"; "https://4.example";
                                    "https://3.example"; "https://2.example";
                                    "https://1.example"] in
  let w := (setRecentUrls old Sample.world).2 in
  recentUrls (component (addToRecentUrls (component w) "https://6.example" w).2)
  = RecentUrl.mk "https://6.example" 1700000000000
    :: stamped 1699999999000 ["https://5.example"; "https://4.example";
                              "https://3.example"; "https://2.example"].
Proof.
  intros old w.
  refine (proj2 (proj2 (add_new_url_evicts_oldest (component w) "https://6.example" w _))
            _ (RecentUrl.mk "https://1.example" 1699999999000) _ _);
    [|reflexivity..].
  apply (bool_decide_unpack _). vm_compute. exact I.
Defined.

(** ** How long the handlers wait *)

Section waiting.
Context {A C : Type}.
Implicit Types (m : M A) (f : A → M C) (d : Z).

Lemma takesAtMost_mono d d' m : d ≤ d' → takesAtMost d m → takesAtMost d' m.
Proof. intros Hd Hm w. specialize (Hm w). lia. Qed.

Lemma takesAtMost_ret d (a : A) : 0 ≤ d → takesAtMost d (mret a).
Proof. intros Hd w. simpl. lia. Qed.

Lemma takesAtMost_throw d e : 0 ≤ d → takesAtMost d (@throw A e).
Proof. intros Hd w. simpl. lia. Qed.

Lemma takesAtMost_bind d1 d2 m f :
  takesAtMost d1 m → (∀ a, takesAtMost d2 (f a)) → 0 ≤ d2 →
  takesAtMost (d1 + d2) (m ≫= f).
Proof.
  intros Hm Hf Hd2 w. unfold mbind, M_bind. specialize (Hm w).
  destruct (m w) as [[a|e] w1]; simpl in *; [|lia].
  specialize (Hf a w1). lia.
Qed.

Lemma takesAtMost_try_catch d1 d2 m (handler : string → M A) :
  takesAtMost d1 m → (∀ e, takesAtMost d2 (handler e)) → 0 ≤ d2 →
  takesAtMost (d1 + d2) (try_catch m handler).
Proof.
  intros Hm Hh Hd2 w. unfold try_catch. specialize (Hm w).
  destruct (m w) as [[a|e] w1]; simpl in *; [lia|].
  specialize (Hh e w1). lia.
Qed.

Lemma takesAtMost_try_finally d1 d2 m (final : M ()) :
  takesAtMost d1 m → takesAtMost d2 final → takesAtMost (d1 + d2) (try_finally m final).
Proof.
  intros Hm Hfin w. unfold try_finally. specialize (Hm w).
  destruct (m w) as [c w1]. specialize (Hfin w1).
  destruct (final w1) as [[[]|e] w2]; simpl in *; lia.
Qed.

End waiting.

Lemma takesAtMost_modify d (g : World → World) :
  0 ≤ d → (∀ w, clock (g w) = clock w) → takesAtMost d (modify g).
Proof. intros Hd Hg w. simpl. rewrite Hg. lia. Qed.

Lemma takesAtMost_Image_await B img ms : takesAtMost (Z.of_N ms) (Image_await B img ms).
Proof.
  intros w. unfold Image_await.
  destruct (Image_load B (length (requests w)) img) as [t iw ih|t|];
    [destruct (N.ltb_spec t ms)..|]; simpl; lia.
Qed.

(** Closes the goals on computations that take no time. *)
Ltac no_wait :=
  first [ apply takesAtMost_ret; lia
        | apply takesAtMost_throw; lia
        | apply takesAtMost_modify; [lia|reflexivity] ].

Section waiting_for_images.
Context (B : Browser).
Implicit Types (w : World).

Lemma takesAtMost_isAccessible faviconUrl : takesAtMost 3000 (isAccessible B faviconUrl).
Proof.
  unfold isAccessible. apply (takesAtMost_bind 0 3000); [unfold new_Image; no_wait| |lia].
  intros _. apply (takesAtMost_bind 3000 0); [|intros [?| |]; no_wait|lia].
  apply (takesAtMost_Image_await B _ 3000).
Qed.

Lemma takesAtMost_loadQrImage qrDataUrl : takesAtMost 10000 (loadQrImage B qrDataUrl).
Proof.
  unfold loadQrImage. apply (takesAtMost_bind 0 10000); [unfold new_Image; no_wait| |lia].
  intros _. apply (takesAtMost_bind 10000 0); [|intros [?| |]; no_wait|lia].
  apply (takesAtMost_Image_await B _ 10000).
Qed.

Lemma takesAtMost_loadLogoImage logoUrl : takesAtMost 8000 (loadLogoImage B logoUrl).
Proof.
  unfold loadLogoImage. apply (takesAtMost_bind 0 8000); [unfold new_Image; no_wait| |lia].
  intros _. apply (takesAtMost_bind 8000 0); [|intros [?| |]; no_wait|lia].
  apply (takesAtMost_Image_await B _ 8000).
Qed.

Lemma takesAtMost_createQRWithLogo qrDataUrl logoUrl :
  takesAtMost 18000 (createQRWithLogo B qrDataUrl logoUrl).
Proof.
  unfold createQRWithLogo. apply (takesAtMost_try_catch 18000 0); [|intros; no_wait|lia].
  apply (takesAtMost_bind 0 18000); [destruct (negb _); no_wait| |lia]. intros _.
  apply (takesAtMost_bind 0 18000); [destruct (negb _); no_wait| |lia]. intros _.
  apply (takesAtMost_bind 10000 8000); [apply takesAtMost_loadQrImage| |lia].
  intros qrImage.
  apply (takesAtMost_bind 8000 0); [| |lia].
  - apply (takesAtMost_try_catch 8000 0); [|intros; no_wait|lia].
    apply (takesAtMost_bind 8000 0); [apply takesAtMost_loadLogoImage| |lia].
    intros; no_wait.
  - intros canvas. apply (takesAtMost_bind 0 0); [|intros; no_wait|lia].
    unfold toDataURL. destruct (canvas_toDataURL B canvas); no_wait.
Qed.

End waiting_for_images.

(** ** The favicon resolver, whatever loads *)

Section resolver_more.
Context (B : Browser).
Implicit Types (w : World) (sources : list string).

Lemma takesAtMost_testFaviconSources sources :
  takesAtMost (3000 * Z.of_nat (length sources)) (testFaviconSources B sources).
Proof.
  induction sources as [|u sources IH]; [simpl; no_wait|].
  cbn [testFaviconSources].
  eapply (takesAtMost_mono (3000 + 3000 * Z.of_nat (length sources)));
    [simpl length; lia|].
  apply takesAtMost_bind; [| |lia].
  - apply (takesAtMost_try_catch 3000 0); [|intros; no_wait|lia].
    apply (takesAtMost_bind 3000 0); [apply takesAtMost_isAccessible| |lia].
    intros [|]; [|no_wait].
    apply (takesAtMost_bind 0 0); [no_wait|intros; no_wait|lia].
  - intros [v|]; [apply takesAtMost_ret; lia|exact IH].
Qed.

Lemma takesAtMost_detectFavicon urlString : takesAtMost 18000 (detectFavicon B urlString).
Proof.
  unfold detectFavicon. destruct (negb _); [no_wait|].
  apply (takesAtMost_bind 0 18000); [no_wait| |lia]. intros _.
  apply (takesAtMost_try_finally 18000 0); [|no_wait].
  apply (takesAtMost_try_catch 18000 0); [| |lia].
  - apply (takesAtMost_bind 0 18000); [unfold new_URL; destruct (URL_new B _); no_wait| |lia].
    intros urlObj. apply (takesAtMost_bind 18000 0); [| |lia].
    + apply (takesAtMost_testFaviconSources (faviconSources urlObj)).
    + intros [v|]; [no_wait|].
      apply (takesAtMost_bind 0 0); [no_wait|intros; no_wait|lia].
  - intros e. apply (takesAtMost_bind 0 0); [no_wait|intros; no_wait|lia].
Qed.

Lemma detectFavicon_flag urlString urlObj w :
  URL_new B urlString = Some urlObj →
  isDetectingLogo (component (detectFavicon B urlString w).2) = false.
Proof.
  intros Hu. rewrite (detectFavicon_valid B _ _ _ Hu). cbv zeta.
  by destruct (testFaviconSources B (faviconSources urlObj)
                 (setIsDetectingLogo true w).2) as [[[u|]|e] w'].
Qed.

End resolver_more.

(** X6. On a URL that parses, the resolver asks the browser for no image and
    waits for nothing: it shows no notice, leaves localStorage alone, and
    changes nothing in the component but the detected favicon, set to the
    favicon service's URL at size 64, and the detecting flag, which is down
    when it returns. *)
Theorem favicon_detection_requests_nothing
    (B : Browser) (urlString : string) (urlObj : URL.t) (w : World) :
  URL_new B urlString = Some urlObj →
  let w' := (detectFavicon B urlString w).2 in
  requests w' = requests w ∧ clock w' = clock w ∧ toasts w' = toasts w ∧
  localStorage w' = localStorage w ∧
  component w'
  = {| url := url (component w); qrCodeDataUrl := qrCodeDataUrl (component w);
       isGenerating := isGenerating (component w); qrSize := qrSize (component w);
       recentUrls := recentUrls (component w); copied := copied (component w);
       logoEnabled := logoEnabled (component w); logoFile := logoFile (component w);
       logoPreview := logoPreview (component w);
       autoDetectLogo := autoDetectLogo (component w);
       detectedFavicon := fallbackFavicon urlObj; isDetectingLogo := false |}.
Proof. intros Hu w'. unfold w'. by rewrite (detectFavicon_run B _ _ _ Hu). Qed.

Lemma favicon_detection_requests_nothing_witness :
  let w' := (detectFavicon (Sample.browser Sample.someIcons) "https://example.com"
               Sample.world).2 in
  requests w' = [] ∧ clock w' = 1700000000000 ∧ toasts w' = [] ∧
  detectedFavicon (component w')
  = "https://www.google.com/s2/favicons?domain=example.com&sz=64".
Proof.
  intros w'.
  destruct (favicon_detection_requests_nothing (Sample.browser Sample.someIcons)
              "https://example.com" (URL.mk "https:" "example.com") Sample.world)
    as (Hreq & Hclock & Hnotices & _ & Hcomp); [reflexivity|].
  split; [exact Hreq|]. split; [exact Hclock|]. split; [exact Hnotices|].
  fold w' in Hcomp. rewrite Hcomp. reflexivity.
Defined.

(** X7. On a URL that parses, what the resolver returns is the first of its
    six candidates, the favicon service's URL at size 64, whichever of the
    candidates the browser could load: no candidate is verified. It is also
    the favicon left on display, and the detecting flag is down again. *)
Theorem favicon_result_is_first_candidate
    (B : Browser) (urlString : string) (urlObj : URL.t) (w : World) :
  URL_new B urlString = Some urlObj →
  let w' := (detectFavicon B urlString w).2 in
  let logoUrl :=
    "https://www.google.com/s2/favicons?domain=" +:+ URL.hostname urlObj +:+ "&sz=64" in
  (detectFavicon B urlString w).1 = Normal (Some logoUrl) ∧
  head (faviconSources urlObj) = Some logoUrl ∧
  detectedFavicon (component w') = logoUrl ∧
  isDetectingLogo (component w') = false.
Proof. intros Hu w' logoUrl. unfold w'. by rewrite (detectFavicon_run B _ _ _ Hu). Qed.

Lemma favicon_result_is_first_candidate_witness :
  let B := Sample.browser Sample.someIcons in
  loadsInTime B 0 "https://www.google.com/s2/favicons?domain=example.com&sz=64" = false ∧
  loadsInTime B 0 "https://icons.duckduckgo.com/ip3/example.com.ico" = true ∧
  (detectFavicon B "https://example.com" Sample.world).1
  = Normal (Some "https://www.google.com/s2/favicons?domain=example.com&sz=64").
Proof.
  intros B. split; [reflexivity|]. split; [reflexivity|].
  apply (favicon_result_is_first_candidate B "https://example.com"
           (URL.mk "https:" "example.com") Sample.world).
  reflexivity.
Defined.
(** ** The compositor, whatever would load *)

(** X9. The compositor changes nothing: it asks the browser for no image,
    waits for nothing, shows no notice and touches neither the component nor
    localStorage, and what it returns is the QR data URL it was given, for
    every browser, QR data URL and logo source. No logo is drawn on any
    canvas that is exported. *)
Theorem compositor_changes_nothing
    (B : Browser) (qrDataUrl logoUrl : string) (w : World) :
  createQRWithLogo B qrDataUrl logoUrl w = (Normal qrDataUrl, w).
Proof. apply createQRWithLogo_run. Qed.

(** ** The geometry of the logo *)




(** ** Parts of the world a handler leaves alone *)

Section frames.
Context {T : Type} (part : World → T).

Lemma keeps_ret {A} (a : A) : keeps part (mret a).
Proof. done. Qed.

Lemma keeps_throw {A} e : keeps part (@throw A e).
Proof. done. Qed.

Lemma keeps_modify (g : World → World) :
  (∀ w, part (g w) = part w) → keeps part (modify g).
Proof. intros Hg w. apply Hg. Qed.

Lemma keeps_bind {A C} (m : M A) (f : A → M C) :
  keeps part m → (∀ a, keeps part (f a)) → keeps part (m ≫= f).
Proof.
  intros Hm Hf w. unfold mbind, M_bind. specialize (Hm w).
  destruct (m w) as [[a|e] w1]; simpl in *; [|done]. by rewrite Hf.
Qed.

Lemma keeps_try_catch {A} (m : M A) (handler : string → M A) :
  keeps part m → (∀ e, keeps part (handler e)) → keeps part (try_catch m handler).
Proof.
  intros Hm Hh w. unfold try_catch. specialize (Hm w).
  destruct (m w) as [[a|e] w1]; simpl in *; [done|]. by rewrite Hh.
Qed.

Lemma keeps_try_finally {A} (m : M A) (final : M ()) :
  keeps part m → keeps part final → keeps part (try_finally m final).
Proof.
  intros Hm Hfin w. unfold try_finally. specialize (Hm w).
  destruct (m w) as [c w1]. specialize (Hfin w1).
  destruct (final w1) as [[[]|e] w2]; simpl in *; congruence.
Qed.

End frames.

(** Splits a goal [keeps part m] along the binds, tries and branches of [m];
    the leaves are hypotheses, or hold by computation. *)
Ltac frame_cases :=
  repeat first
    [ progress intros
    | assumption
    | match goal with H : ∀ _, keeps _ _ |- _ => apply H end
    | match goal with H : ∀ _ _, keeps _ _ |- _ => apply H end
    | match goal with H : ∀ _ _ _, keeps _ _ |- _ => apply H end
    | apply keeps_ret
    | apply keeps_throw
    | match goal with
      | |- keeps _ (if ?b then _ else _) => destruct b
      | |- keeps _ (match ?x with _ => _ end) => destruct x
      end
    | apply keeps_bind
    | apply keeps_try_catch
    | apply keeps_try_finally ].

Section frames_of_handlers.
Context {T : Type} (part : World → T) (B : Browser).
(** The part is one the two fields the resolver writes do not belong to. *)
Context (Hfavicon : ∀ v, keeps part (setDetectedFavicon v)).
Context (Hdetecting : ∀ v, keeps part (setIsDetectingLogo v)).

Lemma keeps_testFaviconSources sources : keeps part (testFaviconSources B sources).
Proof.
  intros w. by rewrite testFaviconSources_run.
Qed.

Lemma keeps_detectFavicon urlString : keeps part (detectFavicon B urlString).
Proof.
  pose proof keeps_testFaviconSources.
  unfold detectFavicon, new_URL. frame_cases.
Qed.

Lemma keeps_createQRWithLogo qrDataUrl logoUrl :
  keeps part (createQRWithLogo B qrDataUrl logoUrl).
Proof.
  intros w. by rewrite createQRWithLogo_run.
Qed.

Lemma keeps_chooseLogoUrl r targetUrl : keeps part (chooseLogoUrl B r targetUrl).
Proof.
  pose proof keeps_detectFavicon. unfold chooseLogoUrl. frame_cases.
Qed.

(** Nor the notices, the generating flag, the displayed image and the
    history. *)
Context (Htoast : ∀ t, keeps part (toast t)).
Context (Hgenerating : ∀ v, keeps part (setIsGenerating v)).
Context (Himage : ∀ v, keeps part (setQrCodeDataUrl v)).
Context (Hadd : ∀ r u, keeps part (addToRecentUrls r u)).

Lemma keeps_addLogo r targetUrl qrDataUrl : keeps part (addLogo B r targetUrl qrDataUrl).
Proof.
  pose proof keeps_chooseLogoUrl. pose proof keeps_createQRWithLogo.
  unfold addLogo. frame_cases.
Qed.

Lemma keeps_generateQRCode r inputUrl : keeps part (generateQRCode B r inputUrl).
Proof.
  pose proof keeps_addLogo.
  unfold generateQRCode, QRCode_toDataURL_await. frame_cases.
Qed.

End frames_of_handlers.

(** ** The orchestrator, path by path *)

(** Closes a goal [keeps part m] on a setter, a notice or an add to the
    history, for a part they do not write. *)
Ltac frame_leaf :=
  intros;
  first [ apply keeps_modify; intros; reflexivity
        | intros ?; reflexivity ].

Section orchestrator_more.
Context (B : Browser).
Implicit Types (w : World) (r : Component).

Lemma takesAtMost_addToRecentUrls r u : takesAtMost 0 (addToRecentUrls r u).
Proof. intros w. simpl. lia. Qed.

Lemma takesAtMost_chooseLogoUrl r targetUrl :
  takesAtMost 18000 (chooseLogoUrl B r targetUrl).
Proof.
  unfold chooseLogoUrl. destruct (_ && _); [no_wait|].
  destruct (autoDetectLogo r); [|no_wait].
  apply (takesAtMost_bind 18000 0); [apply takesAtMost_detectFavicon| |lia].
  intros [f|]; [destruct (JS.truthy f)|]; no_wait.
Qed.

Lemma takesAtMost_addLogo r targetUrl qrDataUrl :
  takesAtMost 36000 (addLogo B r targetUrl qrDataUrl).
Proof.
  unfold addLogo. destruct (logoEnabled r); [|no_wait].
  apply (takesAtMost_bind 18000 18000); [apply takesAtMost_chooseLogoUrl| |lia].
  intros logoUrl. destruct (JS.truthy logoUrl).
  - apply (takesAtMost_try_catch 18000 0); [| |lia].
    + apply (takesAtMost_bind 18000 0); [apply takesAtMost_createQRWithLogo| |lia].
      intros final. apply (takesAtMost_bind 0 0); [|intros; no_wait|lia].
      destruct (decide _); no_wait.
    + intros e. apply (takesAtMost_bind 0 0); [no_wait|intros; no_wait|lia].
  - apply (takesAtMost_mono 0); [lia|].
    apply (takesAtMost_bind 0 0); [no_wait|intros; no_wait|lia].
Qed.

Lemma takesAtMost_generateQRCode r inputUrl :
  takesAtMost 36000 (generateQRCode B r inputUrl).
Proof.
  unfold generateQRCode. destruct (negb _); [no_wait|]. destruct (negb _); [no_wait|].
  apply (takesAtMost_bind 0 36000); [no_wait| |lia]. intros _.
  apply (takesAtMost_try_finally 36000 0); [|no_wait].
  apply (takesAtMost_try_catch 36000 0); [|intros; no_wait|lia].
  apply (takesAtMost_bind 0 36000); [| |lia].
  { unfold QRCode_toDataURL_await. destruct (QRCode_toDataURL B _ _); no_wait. }
  intros qrDataUrl.
  apply (takesAtMost_bind 36000 0); [apply takesAtMost_addLogo| |lia].
  intros final. apply (takesAtMost_bind 0 0); [no_wait| |lia]. intros _.
  apply (takesAtMost_bind 0 0); [|intros; no_wait|lia].
  destruct (JS.falsy inputUrl); [apply takesAtMost_addToRecentUrls|no_wait].
Qed.

Lemma neverThrows_generateQRCode r inputUrl : neverThrows (generateQRCode B r inputUrl).
Proof.
  unfold generateQRCode. destruct (negb _); [apply neverThrows_toast|].
  destruct (negb _); [apply neverThrows_toast|].
  apply neverThrows_bind; [apply neverThrows_modify|]. intros _.
  apply neverThrows_try_finally; [|apply neverThrows_modify].
  apply try_catch_neverThrows. intros e. apply neverThrows_toast.
Qed.

Lemma keeps_toasts_chooseLogoUrl r targetUrl : keeps toasts (chooseLogoUrl B r targetUrl).
Proof. apply keeps_chooseLogoUrl; frame_leaf. Qed.

Lemma chooseLogoUrl_uploaded r targetUrl w :
  bool_decide (is_Some (logoFile r)) && JS.truthy (logoPreview r) = true →
  chooseLogoUrl B r targetUrl w = (Normal (logoPreview r), w).
Proof. intros H. unfold chooseLogoUrl. by rewrite H. Qed.

Lemma chooseLogoUrl_nothing r targetUrl w :
  logoFile r = None ∨ logoPreview r = "" → autoDetectLogo r = false →
  chooseLogoUrl B r targetUrl w = (Normal "", w).
Proof.
  intros Hup Hauto. unfold chooseLogoUrl. rewrite Hauto.
  assert (bool_decide (is_Some (logoFile r)) && JS.truthy (logoPreview r) = false) as ->.
  { destruct Hup as [->| ->]; [done|]. apply andb_false_r. }
  done.
Qed.

Lemma keeps_requests_generateQRCode r inputUrl :
  keeps requests (generateQRCode B r inputUrl).
Proof. apply keeps_generateQRCode; frame_leaf. Qed.

Lemma keeps_clock_generateQRCode r inputUrl :
  keeps clock (generateQRCode B r inputUrl).
Proof. apply keeps_generateQRCode; frame_leaf. Qed.

(** The logo step with the switch on: the compositor, when it is called,
    gives back the plain QR data URL, and one notice is shown. *)
Lemma addLogo_enabled r targetUrl qrDataUrl w :
  logoEnabled r = true →
  ∃ logoUrl w1,
    chooseLogoUrl B r targetUrl w = (Normal logoUrl, w1) ∧
    addLogo B r targetUrl qrDataUrl w
    = (Normal qrDataUrl,
       (toast (if JS.truthy logoUrl then logoIssueToast else noLogoToast) w1).2).
Proof.
  intros Hen. unfold addLogo. rewrite Hen. unfold mbind, M_bind.
  destruct (neverThrows_chooseLogoUrl B r targetUrl w) as [logoUrl Hchosen].
  destruct (chooseLogoUrl B r targetUrl w) as [c w1]. simpl in Hchosen. subst c.
  exists logoUrl, w1. split; [done|].
  destruct (JS.truthy logoUrl); [|done].
  unfold try_catch. rewrite createQRWithLogo_run.
  by destruct (decide (qrDataUrl = qrDataUrl)).
Qed.

Lemma addLogo_returns r targetUrl qrDataUrl w :
  (addLogo B r targetUrl qrDataUrl w).1 = Normal qrDataUrl.
Proof.
  destruct (logoEnabled r) eqn:Hen.
  - by destruct (addLogo_enabled r targetUrl qrDataUrl w Hen) as (? & ? & _ & ->).
  - unfold addLogo. by rewrite Hen.
Qed.

End orchestrator_more.

Section candidates.
Context (B : Browser).

Lemma faviconSources_truthy urlObj f : f ∈ faviconSources urlObj → JS.truthy f = true.
Proof.
  unfold faviconSources. intros Hf.
  repeat (apply elem_of_cons in Hf as [->|Hf]); try reflexivity;
    try (by destruct (URL.protocol urlObj)).
  by apply elem_of_nil in Hf.
Qed.

Lemma detectFavicon_candidate urlString urlObj w :
  URL_new B urlString = Some urlObj →
  ∃ f, (detectFavicon B urlString w).1 = Normal (Some f) ∧ f ∈ faviconSources urlObj.
Proof.
  intros Hu. exists (fallbackFavicon urlObj).
  rewrite (detectFavicon_run B _ _ _ Hu). split; [done|]. by left.
Qed.

Lemma chooseLogoUrl_detected r targetUrl w :
  autoDetectLogo r = true → isValidUrl B targetUrl = true →
  (chooseLogoUrl B r targetUrl w).1 ≠ Normal "".
Proof.
  intros Hauto [urlObj Hu]%isValidUrl_true. unfold chooseLogoUrl.
  destruct (bool_decide _ && JS.truthy (logoPreview r)) eqn:Hup.
  - apply andb_true_iff in Hup as [_ Hp]. simpl. intros [= Heq].
    by rewrite Heq in Hp.
  - rewrite Hauto. unfold mbind, M_bind.
    destruct (detectFavicon_candidate _ _ w Hu) as (f & Hres & Hf).
    destruct (detectFavicon B targetUrl w) as [c w1]. simpl in Hres. subst c.
    apply faviconSources_truthy in Hf. rewrite Hf. simpl. intros [= Heq].
    by rewrite Heq in Hf.
Qed.

End candidates.

(** ** More on the generation orchestrator *)

(** X11. A generation never throws and returns within 36 seconds of waiting
    for images; once the input has passed validation, the generating flag
    is down again when it returns, whether the encoder, the favicons or the
    canvas failed or not. *)
Theorem generation_always_settles
    (B : Browser) (r : Component) (inputUrl : option string) (w : World) :
  let targetUrl := JS.or_else inputUrl (url r) in
  let w' := (generateQRCode B r inputUrl w).2 in
  (generateQRCode B r inputUrl w).1 = Normal () ∧
  clock w ≤ clock w' ≤ clock w + 36000 ∧
  (JS.trim targetUrl ≠ "" → isValidUrl B targetUrl = true →
   isGenerating (component w') = false).
Proof.
  intros targetUrl w'. split; [|split].
  - by destruct (neverThrows_generateQRCode B r inputUrl w) as [[] ->].
  - apply takesAtMost_generateQRCode.
  - intros Ht Hv. unfold w'.
    destruct (QRCode_toDataURL B targetUrl (qrOptions r)) as [qrDataUrl|] eqn:Hq.
    + rewrite (generateQRCode_encoded B r inputUrl w qrDataUrl Ht Hv Hq). cbv zeta.
      by destruct (addLogo B r _ qrDataUrl _) as [[final|e] w1].
    + by rewrite generateQRCode_rejected.
Qed.

Lemma generation_always_settles_witness :
  let w' := (generateQRCode (Sample.browser Sample.offline)
               (Sample.typed "https://example.com" true) None Sample.world).2 in
  1700000000000 ≤ clock w' ≤ 1700000036000 ∧ isGenerating (component w') = false.
Proof.
  intros w'.
  destruct (generation_always_settles (Sample.browser Sample.offline)
              (Sample.typed "https://example.com" true) None Sample.world)
    as (_ & Hclock & Hflag).
  split; [exact Hclock|]. apply Hflag; [done|reflexivity].
Defined.

(** X12. When the input is valid but the QR encoder rejects, the image on
    display, the URL field, the history and localStorage stay as they were,
    no image is requested, and the only notice is "Generation Failed". *)
Theorem encoder_failure_keeps_image
    (B : Browser) (r : Component) (inputUrl : option string) (w : World) :
  let targetUrl := JS.or_else inputUrl (url r) in
  JS.trim targetUrl ≠ "" → isValidUrl B targetUrl = true →
  QRCode_toDataURL B targetUrl (qrOptions r) = None →
  let w' := (generateQRCode B r inputUrl w).2 in
  qrCodeDataUrl (component w') = qrCodeDataUrl (component w) ∧
  url (component w') = url (component w) ∧
  recentUrls (component w') = recentUrls (component w) ∧
  localStorage w' = localStorage w ∧
  requests w' = requests w ∧
  toasts w' = toasts w ++ [generationFailedToast] ∧
  isGenerating (component w') = false.
Proof.
  intros targetUrl Ht Hv Hq w'. unfold w'.
  by rewrite (generateQRCode_rejected B r inputUrl w Ht Hv Hq).
Qed.

Lemma encoder_failure_keeps_image_witness :
  let B := {| URL_new := Sample.parse; Image_load := Sample.offline;
              document_createElement := true; canvas_getContext := true;
              canvas_toDataURL := Sample.encodePNG;
              QRCode_toDataURL := λ _ _, None |} in
  let w' := (generateQRCode B (Sample.typed "https://example.com" true) None
               Sample.world).2 in
  qrCodeDataUrl (component w') = "" ∧ toasts w' = [generationFailedToast].
Proof.
  intros B w'.
  destruct (encoder_failure_keeps_image B (Sample.typed "https://example.com" true) None
              Sample.world) as (Himg & _ & _ & _ & _ & Ht & _);
    [done|reflexivity|reflexivity|].
  split; [exact Himg|exact Ht].
Defined.

Lemma generateQRCode_plain
    (B : Browser) (r : Component) (inputUrl : option string) (qrDataUrl : string)
    (w : World) :
  let targetUrl := JS.or_else inputUrl (url r) in
  logoEnabled r = false →
  JS.trim targetUrl ≠ "" → isValidUrl B targetUrl = true →
  QRCode_toDataURL B targetUrl (qrOptions r) = Some qrDataUrl →
  let w' := (generateQRCode B r inputUrl w).2 in
  qrCodeDataUrl (component w') = qrDataUrl ∧
  requests w' = requests w ∧
  clock w' = clock w ∧
  toasts w'
  = toasts w ++ [{| title := "QR Code Generated!";
                    description := "Your QR code is ready to download or share";
                    variant := Default |}].
Proof.
  intros targetUrl Hoff Ht Hv Hq w'. unfold w'.
  rewrite (generateQRCode_encoded B r inputUrl w qrDataUrl Ht Hv Hq). cbv zeta.
  unfold addLogo, generatedToast. rewrite Hoff. simpl.
  by destruct (JS.falsy inputUrl).
Qed.

(** X13. With the logo switch off, a generation of a valid URL the encoder
    encodes displays exactly what the encoder returned, requests no image,
    takes no time waiting, and shows the single notice "QR Code Generated!". *)
Theorem plain_generation
    (B : Browser) (r : Component) (inputUrl : option string) (qrDataUrl : string)
    (w : World) :
  let targetUrl := JS.or_else inputUrl (url r) in
  logoEnabled r = false →
  JS.trim targetUrl ≠ "" → isValidUrl B targetUrl = true →
  QRCode_toDataURL B targetUrl (qrOptions r) = Some qrDataUrl →
  let w' := (generateQRCode B r inputUrl w).2 in
  qrCodeDataUrl (component w') = qrDataUrl ∧
  requests w' = requests w ∧
  clock w' = clock w ∧
  toasts w'
  = toasts w ++ [{| title := "QR Code Generated!";
                    description := "Your QR code is ready to download or share";
                    variant := Default |}].
Proof. apply generateQRCode_plain. Qed.

Lemma plain_generation_witness :
  let w' := (generateQRCode (Sample.browser Sample.offline)
               (Sample.typed "https://example.com" false) None Sample.world).2 in
  qrCodeDataUrl (component w') = "data:image/png;base64,qr(https://example.com)" ∧
  requests w' = [].
Proof.
  intros w'.
  destruct (plain_generation (Sample.browser Sample.offline)
              (Sample.typed "https://example.com" false) None
              "data:image/png;base64,qr(https://example.com)" Sample.world)
    as (Himg & Hreq & _); [reflexivity|done|reflexivity|reflexivity|].
  split; [exact Himg|exact Hreq].
Defined.

(** X14. With the logo switch on, an uploaded logo (a file and a non-empty
    preview) is the logo source whether auto-detect is on or off: no favicon
    is looked for, the detected favicon is left as it was, and the image
    displayed is what the compositor returns for the preview. That is the
    plain QR code: no image is requested, and the notices are
    "Logo Integration Issue" and then "QR Code Generated!". *)
Theorem uploaded_logo_preferred
    (B : Browser) (r : Component) (inputUrl : option string) (file : File)
    (qrDataUrl : string) (w : World) :
  let targetUrl := JS.or_else inputUrl (url r) in
  logoEnabled r = true → logoFile r = Some file → logoPreview r ≠ "" →
  JS.trim targetUrl ≠ "" → isValidUrl B targetUrl = true →
  QRCode_toDataURL B targetUrl (qrOptions r) = Some qrDataUrl →
  let composed := createQRWithLogo B qrDataUrl (logoPreview r) (setIsGenerating true w).2 in
  let w' := (generateQRCode B r inputUrl w).2 in
  (chooseLogoUrl B r targetUrl (setIsGenerating true w).2).1 = Normal (logoPreview r) ∧
  composed.1 = Normal (qrCodeDataUrl (component w')) ∧
  qrCodeDataUrl (component w') = qrDataUrl ∧
  requests w' = requests w ∧
  detectedFavicon (component w') = detectedFavicon (component w) ∧
  isDetectingLogo (component w') = isDetectingLogo (component w) ∧
  toasts w' = toasts w ++ [logoIssueToast; generatedToast r].
Proof.
  intros targetUrl Hen Hfile Hpreview Ht Hv Hq composed w'. unfold w', composed.
  rewrite (generateQRCode_encoded B r inputUrl w qrDataUrl Ht Hv Hq). cbv zeta.
  fold targetUrl. unfold addLogo. rewrite Hen. unfold mbind, M_bind.
  rewrite chooseLogoUrl_uploaded.
  2: { rewrite Hfile. apply truthy_true in Hpreview. by rewrite Hpreview. }
  apply truthy_true in Hpreview. rewrite Hpreview. unfold try_catch.
  rewrite createQRWithLogo_run.
  destruct (decide (qrDataUrl = qrDataUrl)); [|done].
  destruct (JS.falsy inputUrl); simpl; by rewrite <-app_assoc.
Qed.

Lemma uploaded_logo_preferred_witness :
  let r := {| url := "https://example.com"; qrCodeDataUrl := ""; isGenerating := false;
              qrSize := Size256; recentUrls := []; copied := false; logoEnabled := true;
              logoFile := Some {| file_name := "logo.png"; file_type := "image/png" |};
              logoPreview := "data:image/png;base64,logo"; autoDetectLogo := true;
              detectedFavicon := ""; isDetectingLogo := false |} in
  let w' := (generateQRCode (Sample.browser Sample.offline) r None Sample.world).2 in
  qrCodeDataUrl (component w') = "data:image/png;base64,qr(https://example.com)" ∧
  requests w' = [] ∧
  detectedFavicon (component w') = "" ∧
  toasts w' = [logoIssueToast; generatedToast r].
Proof.
  intros r w'.
  destruct (uploaded_logo_preferred (Sample.browser Sample.offline) r None
              {| file_name := "logo.png"; file_type := "image/png" |}
              "data:image/png;base64,qr(https://example.com)" Sample.world)
    as (_ & _ & Himg & Hreq & Hfav & _ & Hnotices);
    [reflexivity|reflexivity|done|done|reflexivity|reflexivity|].
  split; [exact Himg|]. split; [exact Hreq|]. split; [exact Hfav|exact Hnotices].
Defined.

(** X15. With the logo switch on, nothing uploaded and auto-detect off, no
    logo source is found: the plain QR code is displayed, no image is
    requested, and the notices are "No Logo Found" and then
    "QR Code Generated!". *)
Theorem no_logo_source
    (B : Browser) (r : Component) (inputUrl : option string) (qrDataUrl : string)
    (w : World) :
  let targetUrl := JS.or_else inputUrl (url r) in
  logoEnabled r = true → logoFile r = None ∨ logoPreview r = "" →
  autoDetectLogo r = false →
  JS.trim targetUrl ≠ "" → isValidUrl B targetUrl = true →
  QRCode_toDataURL B targetUrl (qrOptions r) = Some qrDataUrl →
  let w' := (generateQRCode B r inputUrl w).2 in
  qrCodeDataUrl (component w') = qrDataUrl ∧
  requests w' = requests w ∧
  toasts w' = toasts w ++ [noLogoToast; generatedToast r].
Proof.
  intros targetUrl Hen Hup Hauto Ht Hv Hq w'. unfold w'.
  rewrite (generateQRCode_encoded B r inputUrl w qrDataUrl Ht Hv Hq). cbv zeta.
  fold targetUrl. unfold addLogo. rewrite Hen. unfold mbind, M_bind.
  rewrite chooseLogoUrl_nothing; [|done..]. simpl.
  destruct (JS.falsy inputUrl); simpl; by rewrite <-app_assoc.
Qed.

Lemma no_logo_source_witness :
  let r := {| url := "https://example.com"; qrCodeDataUrl := ""; isGenerating := false;
              qrSize := Size256; recentUrls := []; copied := false; logoEnabled := true;
              logoFile := None; logoPreview := ""; autoDetectLogo := false;
              detectedFavicon := ""; isDetectingLogo := false |} in
  let w' := (generateQRCode (Sample.browser Sample.offline) r None Sample.world).2 in
  qrCodeDataUrl (component w') = "data:image/png;base64,qr(https://example.com)" ∧
  toasts w' = [noLogoToast; generatedToast r].
Proof.
  intros r w'.
  destruct (no_logo_source (Sample.browser Sample.offline) r None
              "data:image/png;base64,qr(https://example.com)" Sample.world)
    as (Himg & _ & Ht); [reflexivity|by left|reflexivity|done|reflexivity|reflexivity|].
  split; [exact Himg|exact Ht].
Defined.
(** X8. The logo is never applied: a successful generation displays exactly
    what the encoder returned, with the logo switch on as with it off, and
    whatever the browser could load; the generation asks the browser for no
    image and waits for nothing. *)
Theorem logo_is_never_applied
    (B : Browser) (r : Component) (inputUrl : option string) (qrDataUrl : string)
    (w : World) :
  let targetUrl := JS.or_else inputUrl (url r) in
  JS.trim targetUrl ≠ "" → isValidUrl B targetUrl = true →
  QRCode_toDataURL B targetUrl (qrOptions r) = Some qrDataUrl →
  let w' := (generateQRCode B r inputUrl w).2 in
  qrCodeDataUrl (component w') = qrDataUrl ∧
  requests w' = requests w ∧
  clock w' = clock w.
Proof.
  intros targetUrl Ht Hv Hq w'. unfold w'.
  split; [|split; [apply keeps_requests_generateQRCode|apply keeps_clock_generateQRCode]].
  rewrite (generateQRCode_encoded B r inputUrl w qrDataUrl Ht Hv Hq). cbv zeta.
  fold targetUrl.
  pose proof (addLogo_returns B r targetUrl qrDataUrl (setIsGenerating true w).2) as Hlogo.
  destruct (addLogo B r targetUrl qrDataUrl _) as [c w1]. simpl in Hlogo. subst c.
  by destruct (JS.falsy inputUrl).
Qed.

Lemma logo_is_never_applied_witness :
  let B := Sample.browser Sample.slow in
  let w' := (generateQRCode B (Sample.typed "https://example.com" true) None
               Sample.world).2 in
  is_Some (Image_within B 0 (imageRequest "data:image/png;base64,qr(https://example.com)")
             10000) ∧
  is_Some (Image_within B 1
             (imageRequest "https://www.google.com/s2/favicons?domain=example.com&sz=64")
             8000) ∧
  qrCodeDataUrl (component w') = "data:image/png;base64,qr(https://example.com)" ∧
  requests w' = [] ∧
  clock w' = 1700000000000.
Proof.
  intros B w'. split; [by eexists|]. split; [by eexists|].
  apply (logo_is_never_applied B (Sample.typed "https://example.com" true) None
           "data:image/png;base64,qr(https://example.com)" Sample.world);
    [done|reflexivity|reflexivity].
Defined.

(** X16. A successful generation ends with the notice "QR Code Generated!",
    after no other notice when the logo switch is off and after exactly one
    when it is on: "Logo Integration Issue" when a logo source was found
    (an uploaded image or a favicon), or "No Logo Found", which needs
    auto-detect to be off. "Success!" and "Logo Integration Failed" are never
    shown. *)
Theorem notices_of_a_generation
    (B : Browser) (r : Component) (inputUrl : option string) (qrDataUrl : string)
    (w : World) :
  let targetUrl := JS.or_else inputUrl (url r) in
  JS.trim targetUrl ≠ "" → isValidUrl B targetUrl = true →
  QRCode_toDataURL B targetUrl (qrOptions r) = Some qrDataUrl →
  let w' := (generateQRCode B r inputUrl w).2 in
  ∃ logoNotices,
    toasts w' = toasts w ++ logoNotices ++ [generatedToast r] ∧
    (logoSuccessToast ∉ logoNotices) ∧
    (logoFailedToast ∉ logoNotices) ∧
    (logoEnabled r = false → logoNotices = []) ∧
    (logoEnabled r = true →
     (logoNotices = [logoIssueToast] ∧
      (chooseLogoUrl B r targetUrl (setIsGenerating true w).2).1 ≠ Normal "") ∨
     (logoNotices = [noLogoToast] ∧ autoDetectLogo r = false ∧
      (chooseLogoUrl B r targetUrl (setIsGenerating true w).2).1 = Normal "")).
Proof.
  intros targetUrl Ht Hv Hq w'. unfold w'.
  rewrite (generateQRCode_encoded B r inputUrl w qrDataUrl Ht Hv Hq). cbv zeta.
  fold targetUrl. destruct (logoEnabled r) eqn:Hen.
  - destruct (addLogo_enabled B r targetUrl qrDataUrl (setIsGenerating true w).2 Hen)
      as (logoUrl & w1 & Hchosen & Hrun).
    pose proof (chooseLogoUrl_detected B r targetUrl (setIsGenerating true w).2) as Hdet.
    pose proof (keeps_toasts_chooseLogoUrl B r targetUrl (setIsGenerating true w).2) as Hkept.
    rewrite Hchosen in Hdet, Hkept |- *. rewrite Hrun. cbn [fst snd] in *.
    exists [if JS.truthy logoUrl then logoIssueToast else noLogoToast].
    split; [|split; [|split; [|split; [done|]]]].
    + destruct (JS.falsy inputUrl); simpl; rewrite Hkept, <-app_assoc; done.
    + destruct (JS.truthy logoUrl); by intros [= ]%list_elem_of_singleton.
    + destruct (JS.truthy logoUrl); by intros [= ]%list_elem_of_singleton.
    + intros _. destruct (JS.truthy logoUrl) eqn:Htruthy.
      * left. split; [done|]. intros [= ->]. done.
      * right. apply truthy_false in Htruthy. subst logoUrl. split; [done|].
        split; [|done]. destruct (autoDetectLogo r); [|done].
        by destruct (Hdet eq_refl Hv).
  - exists []. unfold addLogo. rewrite Hen. simpl.
    split; [by destruct (JS.falsy inputUrl)|].
    split; [apply not_elem_of_nil|]. split; [apply not_elem_of_nil|]. split; done.
Qed.

Lemma notices_of_a_generation_witness :
  let r := Sample.typed "https://example.com" true in
  let w' := (generateQRCode (Sample.browser Sample.slow) r None Sample.world).2 in
  toasts w' = [logoIssueToast; generatedToast r].
Proof.
  intros r w'.
  destruct (notices_of_a_generation (Sample.browser Sample.slow) r None
              "data:image/png;base64,qr(https://example.com)" Sample.world)
    as (logoNotices & Ht & _ & _ & _ & Hon); [done|reflexivity|reflexivity|].
  destruct Hon as [[-> _]|(_ & Hauto & _)]; [reflexivity|exact Ht|discriminate Hauto].
Defined.

Section keys_and_fields.
Context (B : Browser).

Lemma keeps_url_generateQRCode r inputUrl :
  keeps (λ w, url (component w)) (generateQRCode B r inputUrl).
Proof. apply keeps_generateQRCode; frame_leaf. Qed.

Lemma keeps_otherKeys_generateQRCode r inputUrl :
  keeps otherKeys (generateQRCode B r inputUrl).
Proof.
  apply keeps_generateQRCode; try frame_leaf.
  intros r' u w. unfold otherKeys. simpl. apply delete_insert_eq.
Qed.

Lemma otherKeys_lookup w w' key :
  otherKeys w' = otherKeys w → key ≠ recentUrlsKey →
  localStorage w' !! key = localStorage w !! key.
Proof.
  unfold otherKeys. intros Heq Hkey.
  rewrite <-(lookup_delete_ne (localStorage w') recentUrlsKey key) by done.
  rewrite Heq. by apply lookup_delete_ne.
Qed.

End keys_and_fields.

(** X17. Selecting a history entry puts its URL in the URL field, and the
    code generated is the one of that URL at the size of the render, whatever
    was typed in the field: with the logo switch off, the image displayed is
    what the encoder returns for the entry's URL. *)
Theorem select_generates_for_entry
    (B : Browser) (r : Component) (item : RecentUrl) (qrDataUrl : string) (w : World) :
  RecentUrl.url item ≠ "" →
  let w' := (selectRecentUrl B r item w).2 in
  url (component w') = RecentUrl.url item ∧
  (logoEnabled r = false →
   JS.trim (RecentUrl.url item) ≠ "" → isValidUrl B (RecentUrl.url item) = true →
   QRCode_toDataURL B (RecentUrl.url item) (qrOptions r) = Some qrDataUrl →
   qrCodeDataUrl (component w') = qrDataUrl).
Proof.
  intros Hu w'. unfold w', selectRecentUrl, mbind, M_bind. simpl.
  split.
  - by rewrite (keeps_url_generateQRCode B r (Some (RecentUrl.url item))).
  - intros Hoff Ht Hv Hq.
    pose proof (or_else_truthy (RecentUrl.url item) (url r) Hu) as Htarget.
    apply (generateQRCode_plain B r (Some (RecentUrl.url item)) qrDataUrl);
      rewrite ?Htarget; done.
Qed.

Lemma select_generates_for_entry_witness :
  let r := Sample.typed "something typed" false in
  let item := RecentUrl.mk "https://example.com" 1699999999000 in
  let w' := (selectRecentUrl (Sample.browser Sample.offline) r item Sample.world).2 in
  url (component w') = "https://example.com" ∧
  qrCodeDataUrl (component w') = "data:image/png;base64,qr(https://example.com)".
Proof.
  intros r item w'.
  destruct (select_generates_for_entry (Sample.browser Sample.offline) r item
              "data:image/png;base64,qr(https://example.com)" Sample.world)
    as [Hurl Himg]; [done|].
  split; [exact Hurl|]. apply Himg; [reflexivity|done|reflexivity|reflexivity].
Defined.

(** X18. The component writes one key of localStorage only: a generation,
    the selection of a history entry, clearing the history and mounting leave
    every other key as it was. *)
Theorem only_history_key_touched
    (B : Browser) (r : Component) (inputUrl : option string) (item : RecentUrl)
    (w : World) (key : string) :
  key ≠ recentUrlsKey →
  localStorage (generateQRCode B r inputUrl w).2 !! key = localStorage w !! key ∧
  localStorage (selectRecentUrl B r item w).2 !! key = localStorage w !! key ∧
  localStorage (clearRecentUrls w).2 !! key = localStorage w !! key ∧
  localStorage (mount w).2 !! key = localStorage w !! key.
Proof.
  intros Hkey. split; [|split; [|split]].
  - apply otherKeys_lookup; [|done]. apply keeps_otherKeys_generateQRCode.
  - apply otherKeys_lookup; [|done].
    unfold selectRecentUrl, mbind, M_bind. simpl.
    by rewrite keeps_otherKeys_generateQRCode.
  - simpl. by apply lookup_delete_ne.
  - by rewrite mount_localStorage.
Qed.

Lemma only_history_key_touched_witness :
  let w := (localStorage_setItem "theme" (Garbled "dark") Sample.world).2 in
  localStorage
    (generateQRCode (Sample.browser Sample.offline)
       (Sample.typed "https://example.com" false) None w).2 !! "theme"
  = Some (Garbled "dark").
Proof.
  intros w.
  destruct (only_history_key_touched (Sample.browser Sample.offline)
              (Sample.typed "https://example.com" false) None
              (RecentUrl.mk "https://example.com" 0) w "theme") as [-> _]; [done|].
  reflexivity.
Defined.

(** X19. With the logo switch off no image is ever requested: not by a
    generation, whatever its input, not by the Enter key, not by selecting a
    history entry, and not by the effect that follows a change of the URL. *)
Theorem logo_off_no_request
    (B : Browser) (r : Component) (inputUrl : option string) (key : string)
    (item : RecentUrl) (w : World) :
  logoEnabled r = false →
  requests (generateQRCode B r inputUrl w).2 = requests w ∧
  requests (handleKeyPress B r key w).2 = requests w ∧
  requests (selectRecentUrl B r item w).2 = requests w ∧
  requests (autoDetectEffect B r w).2 = requests w.
Proof.
  intros Hoff. split; [|split; [|split]].
  - by apply keeps_requests_generateQRCode.
  - unfold handleKeyPress. destruct (decide _); [|done].
    by apply keeps_requests_generateQRCode.
  - unfold selectRecentUrl, mbind, M_bind. simpl.
    by rewrite keeps_requests_generateQRCode.
  - unfold autoDetectEffect. rewrite Hoff, andb_false_r. done.
Qed.

Lemma logo_off_no_request_witness :
  requests (generateQRCode (Sample.browser Sample.slow)
              (Sample.typed "https://example.com" false) None Sample.world).2 = [].
Proof.
  apply (logo_off_no_request (Sample.browser Sample.slow)
           (Sample.typed "https://example.com" false) None "Enter"
           (RecentUrl.mk "https://example.com" 0) Sample.world).
  reflexivity.
Defined.

(** ** Uploading, downloading, copying *)

Section file_names.

Lemma append_length s t :
  String.length (s +:+ t) = (String.length s + String.length t)%nat.
Proof. induction s as [|c s IH]; simpl; [done|]. by rewrite IH. Qed.

Lemma append_inv_tail s1 s2 t : s1 +:+ t = s2 +:+ t → s1 = s2.
Proof.
  revert s2. induction s1 as [|c s1 IH]; intros [|c' s2] Heq; simpl in Heq.
  - done.
  - apply (f_equal String.length) in Heq. rewrite !append_length in Heq.
    simpl in Heq. lia.
  - apply (f_equal String.length) in Heq. rewrite !append_length in Heq.
    simpl in Heq. lia.
  - injection Heq as -> Heq. f_equal. by apply IH.
Qed.

Lemma pretty_N_go_not_w x : ∀ s,
  (∀ rest, s ≠ String "w" rest) → ∀ rest, pretty_N_go x s ≠ String "w" rest.
Proof.
  induction (N.lt_wf_0 x) as [x _ IH]; intros s Hs.
  assert (x = 0 ∨ 0 < x)%N as [->|Hpos] by lia.
  - by rewrite pretty_N_go_0.
  - rewrite pretty_N_go_step by done. apply IH; [by apply N.div_lt|].
    intros rest. unfold pretty_N_char. repeat case_match; discriminate.
Qed.

Lemma pretty_Z_not_w (z : Z) rest : pretty z ≠ String "w" rest.
Proof.
  unfold pretty, pretty_Z. destruct z as [|p|p]; [discriminate| |discriminate].
  unfold pretty, pretty_positive, pretty, pretty_N. case_decide; [discriminate|].
  by apply pretty_N_go_not_w.
Qed.

Lemma downloadName_inj l1 l2 t1 t2 :
  downloadName l1 t1 = downloadName l2 t2 → l1 = l2 ∧ t1 = t2.
Proof.
  unfold downloadName. intros Heq. apply String.app_inj in Heq.
  destruct l1, l2.
  - apply String.app_inj, append_inv_tail in Heq. by apply (inj pretty) in Heq.
  - exfalso. simpl in Heq. destruct (pretty t2) as [|c s] eqn:Ht2; [discriminate|].
    injection Heq as <- _. by apply pretty_Z_not_w in Ht2.
  - exfalso. simpl in Heq. destruct (pretty t1) as [|c s] eqn:Ht1; [discriminate|].
    injection Heq as -> _. by apply pretty_Z_not_w in Ht1.
  - change (pretty t1 +:+ ".png" = pretty t2 +:+ ".png") in Heq.
    apply append_inv_tail in Heq. by apply (inj pretty) in Heq.
Qed.

End file_names.

(** X20. Only the first chosen file counts for an upload. A file whose type
    does not start with image/ is refused with the notice "Invalid File" and
    the state is left as it was; an image becomes the logo file, and the
    preview becomes what the reader makes of it, or stays as it was when the
    read fails. *)
Theorem upload_takes_images_only
    (reader : File → option string) (files : list File) (w : World) :
  let w' := (uploadLogo reader files w).2 in
  (uploadLogo reader files w).1 = Normal () ∧
  (head files = None → w' = w) ∧
  (∀ file, head files = Some file → JS.startsWith (file_type file) "image/" = false →
     component w' = component w ∧ toasts w' = toasts w ++ [invalidFileToast]) ∧
  (∀ file, head files = Some file → JS.startsWith (file_type file) "image/" = true →
     logoFile (component w') = Some file ∧
     logoPreview (component w') = default (logoPreview (component w)) (reader file) ∧
     toasts w' = toasts w).
Proof.
  intros w'. unfold w', uploadLogo, handleLogoUpload, mbind, M_bind.
  destruct (head files) as [f|];
    [|split; [done|]; split; [done|]; split; by intros ? [=]].
  destruct (JS.startsWith (file_type f) "image/") eqn:Himg; simpl.
  - split; [by destruct (reader f)|]. split; [done|].
    split; [intros file [= <-] Hno; congruence|].
    intros file [= <-] _. by destruct (reader f).
  - split; [done|]. split; [done|]. split; [done|].
    intros file [= <-] Hyes. congruence.
Qed.

Lemma upload_takes_images_only_witness :
  let reader := λ _ : File, Some "data:image/png;base64,logo" in
  let text := {| file_name := "notes.txt"; file_type := "text/plain" |} in
  let image := {| file_name := "logo.png"; file_type := "image/png" |} in
  toasts (uploadLogo reader [text; image] Sample.world).2 = [invalidFileToast] ∧
  logoPreview (component (uploadLogo reader [image; text] Sample.world).2)
  = "data:image/png;base64,logo".
Proof.
  intros reader text image. split.
  - destruct (upload_takes_images_only reader [text; image] Sample.world)
      as (_ & _ & Hbad & _).
    by destruct (Hbad text) as [_ ->].
  - destruct (upload_takes_images_only reader [image; text] Sample.world)
      as (_ & _ & _ & Hgood).
    by destruct (Hgood image) as (_ & -> & _).
Defined.

(** X21. A download without an image does nothing. With one, the link
    clicked points at the image of the render and is named after the logo
    switch and the time, and the only other effect is the notice
    "Downloaded!". Two downloads get the same name only if they are made in
    the same millisecond with the logo switch in the same position. *)
Theorem download_names_the_file (r1 r2 : Component) (w1 w2 : World) :
  (qrCodeDataUrl r1 = "" → downloadQRCode r1 w1 = (Normal None, w1)) ∧
  (qrCodeDataUrl r1 ≠ "" → qrCodeDataUrl r2 ≠ "" →
   ∃ link1 link2,
     (downloadQRCode r1 w1).1 = Normal (Some link1) ∧
     (downloadQRCode r2 w2).1 = Normal (Some link2) ∧
     href link1 = qrCodeDataUrl r1 ∧
     download link1 = downloadName (logoEnabled r1) (clock w1) ∧
     component (downloadQRCode r1 w1).2 = component w1 ∧
     toasts (downloadQRCode r1 w1).2 = toasts w1 ++ [downloadedToast] ∧
     (download link1 = download link2 →
      clock w1 = clock w2 ∧ logoEnabled r1 = logoEnabled r2)).
Proof.
  unfold downloadQRCode. split.
  - by intros ->.
  - intros H1%truthy_true H2%truthy_true. rewrite H1, H2. simpl.
    eexists. eexists. do 6 (split; [reflexivity|]). simpl.
    intros Heq%downloadName_inj. by destruct Heq.
Qed.

Lemma download_names_the_file_witness :
  let r := {| url := "https://example.com";
              qrCodeDataUrl := "data:image/png;base64,qr(https://example.com)";
              isGenerating := false; qrSize := Size256; recentUrls := []; copied := false;
              logoEnabled := true; logoFile := None; logoPreview := "";
              autoDetectLogo := true; detectedFavicon := ""; isDetectingLogo := false |} in
  (downloadQRCode r Sample.world).1
  = Normal (Some {| download := "qr-code-with-logo-1700000000000.png";
                    href := "data:image/png;base64,qr(https://example.com)" |}).
Proof.
  intros r.
  destruct (download_names_the_file r r Sample.world Sample.world) as [_ Hlink].
  destruct Hlink as (link1 & link2 & H1 & _ & Hhref & Hname & _); [done..|].
  rewrite H1. destruct link1 as [name target]. simpl in Hhref, Hname.
  by rewrite Hhref, Hname.
Defined.

(** X22. Copying never throws and never touches the image, the URL field,
    the history, localStorage or the image requests. Without an image it does
    nothing; when the clipboard refuses, the state of the component stays
    as it was and the notice is "Copy Failed"; when it accepts, the copied
    mark is set, the notice is "Copied!", and the timer's callback takes the
    mark down again. *)
Theorem copy_is_isolated (clipboard : string → bool) (r : Component) (w : World) :
  let w' := (copyToClipboard clipboard r w).2 in
  (∃ timer, (copyToClipboard clipboard r w).1 = Normal timer) ∧
  (qrCodeDataUrl (component w') = qrCodeDataUrl (component w) ∧
   url (component w') = url (component w) ∧
   recentUrls (component w') = recentUrls (component w) ∧
   localStorage w' = localStorage w ∧ requests w' = requests w) ∧
  (qrCodeDataUrl r = "" → w' = w) ∧
  (qrCodeDataUrl r ≠ "" → clipboard (qrCodeDataUrl r) = false →
   component w' = component w ∧ toasts w' = toasts w ++ [copyFailedToast]) ∧
  (qrCodeDataUrl r ≠ "" → clipboard (qrCodeDataUrl r) = true →
   (copyToClipboard clipboard r w).1 = Normal true ∧
   copied (component w') = true ∧ toasts w' = toasts w ++ [copiedToast] ∧
   copied (component (copiedTimeout w').2) = false).
Proof.
  intros w'. unfold w', copyToClipboard.
  destruct (JS.truthy (qrCodeDataUrl r)) eqn:Himg; simpl.
  - apply truthy_true in Himg. unfold try_catch, mbind, M_bind.
    destruct (clipboard (qrCodeDataUrl r)); simpl;
      (split; [by eexists|]); (split; [done|]); split; done.
  - apply truthy_false in Himg. split; [by eexists|]. repeat split; done.
Qed.

Lemma copy_is_isolated_witness :
  let r := {| url := "https://example.com";
              qrCodeDataUrl := "data:image/png;base64,qr(https://example.com)";
              isGenerating := false; qrSize := Size256; recentUrls := []; copied := false;
              logoEnabled := false; logoFile := None; logoPreview := "";
              autoDetectLogo := true; detectedFavicon := ""; isDetectingLogo := false |} in
  toasts (copyToClipboard (λ _, false) r Sample.world).2 = [copyFailedToast] ∧
  copied (component (copyToClipboard (λ _, true) r Sample.world).2) = true.
Proof.
  intros r. split.
  - destruct (copy_is_isolated (λ _, false) r Sample.world) as (_ & _ & _ & Hfail & _).
    by destruct Hfail as [_ ->].
  - destruct (copy_is_isolated (λ _, true) r Sample.world) as (_ & _ & _ & _ & Hok).
    by destruct Hok as (_ & -> & _).
Defined.

(** ** What enters the history, and when *)

(** X23. A generation changes the history list in one way only: by one add
    of its input, and only when the call had no explicit input, the input is
    not blank, [new URL] accepts it and the encoder encoded it. *)
Theorem history_gains_valid_urls_only
    (B : Browser) (r : Component) (inputUrl : option string) (w : World) :
  let targetUrl := JS.or_else inputUrl (url r) in
  let w' := (generateQRCode B r inputUrl w).2 in
  recentUrls (component w') = recentUrls (component w) ∨
  (∃ now, recentUrls (component w') = updated (recentUrls r) targetUrl now) ∧
  JS.falsy inputUrl = true ∧ JS.trim targetUrl ≠ "" ∧ isValidUrl B targetUrl = true ∧
  is_Some (QRCode_toDataURL B targetUrl (qrOptions r)).
Proof.
  intros targetUrl w'. unfold w'.
  destruct (decide (JS.trim targetUrl = "")) as [Ht|Ht].
  { left. by rewrite generateQRCode_blank. }
  destruct (isValidUrl B targetUrl) eqn:Hv.
  2: { left. by rewrite generateQRCode_invalid. }
  destruct (QRCode_toDataURL B targetUrl (qrOptions r)) as [qrDataUrl|] eqn:Hq.
  2: { left. by rewrite generateQRCode_rejected. }
  rewrite (generateQRCode_encoded B r inputUrl w qrDataUrl Ht Hv Hq). cbv zeta.
  fold targetUrl.
  pose proof (keepsHistory_addLogo B r targetUrl qrDataUrl (setIsGenerating true w).2)
    as [Hl _].
  destruct (addLogo B r targetUrl qrDataUrl _) as [[final|e] w1]; simpl in Hl;
    [|by left].
  destruct (JS.falsy inputUrl); [|by left].
  right. split; [by exists (clock w1)|]. by repeat split.
Qed.

(** X24. An add is made from the list of the render that started the
    generation. When the history is cleared while a generation is waiting,
    the add that follows brings the cleared entries back, in the list and in
    the persisted record; an add started after the clear does not. *)
Theorem cleared_history_comes_back (newUrl : string) (w : World) :
  let entry := RecentUrl.mk newUrl (clock w) in
  let stale := runHistory [OpClear; OpAdd newUrl 1] [] w in
  let current := runHistory [OpClear; OpAdd newUrl 0] [] w in
  recentUrls (component stale)
  = take 5 (entry :: filter (λ item, RecentUrl.url item ≠ newUrl) (recentUrls (component w))) ∧
  localStorage stale !! recentUrlsKey = Some (Serialized (recentUrls (component stale))) ∧
  recentUrls (component current) = [entry].
Proof.
  intros entry stale current. split; [reflexivity|]. split; [|reflexivity].
  unfold stale. simpl. apply lookup_insert_eq.
Qed.
